(** * wxMesh: a weewx driver fed by an MQTT subscription

    A shallow embedding of [wxMesh.py] and the properties of its record
    generator: the payload queue filled by the transport callback, the
    decoding of each payload, the mapping of its fields into a loop packet,
    and the polling loop of [genLoopPackets].

    Python values are modelled by [pyval]; a Python [float] is an IEEE
    binary64 number, here Rocq's primitive [float].  The builtins and
    library functions the driver calls ([json.loads], [float] on a [str],
    [bytes.decode], [time.sleep]) are the fields of the class [Builtins], and the
    properties hold for every instance of it; the module [Reference] gives
    an executable instance, used to run the model on concrete payloads. *)

From Stdlib Require Import ZArith Ascii String FloatClass PrimFloat FloatOps SpecFloat.
From Stdlib.Strings Require Import Byte.
From stdpp Require Import base option list strings gmap.

#[local] Set Warnings "-register-all,-clear-no-such-hyp".
Local Open Scope string_scope.
Local Open Scope list_scope.
Local Open Scope Z_scope.

(** ** Python values, exceptions and dictionaries *)

(** The exceptions that the modelled code can meet. *)
Inductive exn : Type :=
  | ValueError
  | TypeError
  | OverflowError
  | NameError
  | JSONDecodeError
  | UnicodeDecodeError
  | OSError
  | Empty.

(** The outcome of a Python expression: a value or a raised exception. *)
Inductive result (A : Type) : Type :=
  | Ok (a : A)
  | Raise (e : exn).

Arguments Ok {A} a.
Arguments Raise {A} e.

(** The values [json.loads] produces: [None], [bool], [int], [float],
    [str], [list] and [dict].  A [dict] keeps its insertion order, so it is
    an association list whose keys are visited in list order. *)
Inductive pyval : Type :=
  | PNone
  | PBool (b : bool)
  | PInt (z : Z)
  | PFloat (f : float)
  | PStr (s : string)
  | PList (l : list pyval)
  | PDict (d : list (string * pyval)).

(** [k in d] and [d[k]]. *)
Fixpoint dict_get (k : string) (d : list (string * pyval)) : option pyval :=
  match d with
  | [] => None
  | (k', v) :: d' => if decide (k' = k) then Some v else dict_get k d'
  end.

(** [d[k] = v]: an existing key keeps its place, a new key goes last. *)
Fixpoint dict_set (k : string) (v : pyval) (d : list (string * pyval))
  : list (string * pyval) :=
  match d with
  | [] => [(k, v)]
  | (k', v') :: d' =>
      if decide (k' = k) then (k, v) :: d' else (k', v') :: dict_set k v d'
  end.

(** The keys in iteration order ([for vname in data]). *)
Definition dict_keys (d : list (string * pyval)) : list string := d.*1.

(** [weewx.METRIC], the unit-system tag of the metric system. *)
Definition METRIC : Z := 0x10.

(** [float(z)] on an [int]: rounding to nearest even; an [int] whose
    rounding exceeds the binary64 range raises [OverflowError]. *)
Definition float_of_int (z : Z) : result float :=
  match binary_normalize prec emax z 0 false with
  | S754_infinity _ => Raise OverflowError
  | x => Ok (SF2Prim x)
  end.

(** ** Reference instances of the library functions *)

Module Reference.

Definition code (c : ascii) : Z := Z.of_nat (nat_of_ascii c).

Definition is_digit (c : ascii) : bool := (48 <=? code c) && (code c <=? 57).

Definition is_space (c : ascii) : bool :=
  (code c =? 32) || ((9 <=? code c) && (code c <=? 13)).

Definition lower (c : ascii) : ascii :=
  if (65 <=? code c) && (code c <=? 90)
  then ascii_of_nat (nat_of_ascii c + 32) else c.

Fixpoint lstrip (s : list ascii) : list ascii :=
  match s with
  | c :: s' => if is_space c then lstrip s' else s
  | [] => []
  end.

Definition strip (s : list ascii) : list ascii := rev (lstrip (rev (lstrip s))).

(** The digits that continue a [digitpart]: a digit, or an underscore
    followed by a digit. *)
Fixpoint digit_run (s : list ascii) : list ascii * list ascii :=
  match s with
  | c :: s' =>
      if is_digit c then let (ds, r) := digit_run s' in (c :: ds, r)
      else if (code c =? 95) then
        match s' with
        | c2 :: s'' =>
            if is_digit c2 then let (ds, r) := digit_run s'' in (c2 :: ds, r)
            else ([], s)
        | [] => ([], s)
        end
      else ([], s)
  | [] => ([], [])
  end.

(** [digitpart ::= digit (["_"] digit)*], possibly absent. *)
Definition digitpart (s : list ascii) : list ascii * list ascii :=
  match s with
  | c :: s' => if is_digit c then let (ds, r) := digit_run s' in (c :: ds, r)
               else ([], s)
  | [] => ([], [])
  end.

Definition digits_value (ds : list ascii) : Z :=
  fold_left (fun acc c => 10 * acc + (code c - 48)) ds 0.

Definition sign (s : list ascii) : bool * list ascii :=
  match s with
  | "-"%char :: r => (true, r)
  | "+"%char :: r => (false, r)
  | _ => (false, s)
  end.

(** The binary64 number nearest to [m * 10 ^ e] (ties to even), with the
    sign [neg]. *)
Definition float_of_decimal (neg : bool) (m e : Z) : float :=
  SF2Prim
    match m with
    | Zpos p =>
        if 0 <=? e then binary_normalize prec emax
                          (if neg then - (m * 10 ^ e) else m * 10 ^ e) 0 neg
        else
          let '(q, e', l) := SFdiv_core_binary prec emax m 0 (10 ^ (- e)) 0 in
          binary_round_aux prec emax neg q e' l
    | _ => S754_zero neg
    end.

(** [float(s)] on a [str]: surrounding white space, a sign, then
    [inf], [infinity], [nan] or a decimal literal with an optional
    fraction and exponent.  [None] stands for [ValueError]. *)
Definition float_of_chars (s : list ascii) : option float :=
  let (neg, body) := sign (strip s) in
  let word := string_of_list_ascii (map lower body) in
  if decide (word = "inf" ∨ word = "infinity")
  then Some (if neg then neg_infinity else infinity)
  else if decide (word = "nan") then Some nan
  else
    let (ip, r1) := digitpart body in
    let (fp, r2) := match r1 with
                    | "."%char :: r => digitpart r
                    | _ => ([], r1)
                    end in
    match ip, fp with
    | [], [] => None
    | _, _ =>
        let m := digits_value (ip ++ fp) in
        let k := Z.of_nat (length fp) in
        match r2 with
        | [] => Some (float_of_decimal neg m (- k))
        | c :: r =>
            if decide (lower c = "e"%char) then
              let (eneg, r') := sign r in
              match digitpart r' with
              | (d :: ds, []) =>
                  let e := digits_value (d :: ds) in
                  Some (float_of_decimal neg m ((if eneg then - e else e) - k))
              | _ => None
              end
            else None
        end
    end.

Definition float_of_str (s : string) : option float :=
  float_of_chars (list_ascii_of_string s).

(** *** [json.loads] *)

Definition is_json_space (c : ascii) : bool :=
  (code c =? 32) || (code c =? 9) || (code c =? 10) || (code c =? 13).

Fixpoint skip_ws (s : list ascii) : list ascii :=
  match s with
  | c :: s' => if is_json_space c then skip_ws s' else s
  | [] => []
  end.

(** The character an escape sequence [\c] stands for ([\u] sequences
    are outside this decoder). *)
Definition unescape (c : ascii) : option ascii :=
  if code c =? 34 then Some c                       (* quote *)
  else if code c =? 92 then Some c                  (* backslash *)
  else if code c =? 47 then Some c                  (* slash *)
  else if code c =? 98 then Some (ascii_of_nat 8)   (* b *)
  else if code c =? 102 then Some (ascii_of_nat 12) (* f *)
  else if code c =? 110 then Some (ascii_of_nat 10) (* n *)
  else if code c =? 114 then Some (ascii_of_nat 13) (* r *)
  else if code c =? 116 then Some (ascii_of_nat 9)  (* t *)
  else None.

(** The rest of a string literal, after its opening quote. *)
Fixpoint scan_string (s acc : list ascii) : option (string * list ascii) :=
  match s with
  | [] => None
  | c :: r =>
      if code c =? 34 then Some (string_of_list_ascii (rev acc), r)
      else if code c =? 92 then
        match r with
        | e :: r' =>
            match unescape e with
            | Some c' => scan_string r' (c' :: acc)
            | None => None
            end
        | [] => None
        end
      else if code c <? 32 then None
      else scan_string r (c :: acc)
  end.

Fixpoint digits (s : list ascii) : list ascii * list ascii :=
  match s with
  | c :: s' => if is_digit c then let (ds, r) := digits s' in (c :: ds, r)
               else ([], s)
  | [] => ([], [])
  end.

(** A number: an optional minus, an integer part without leading zero,
    an optional fraction and an optional exponent; an [int] without
    fraction and exponent, the [float] of its text otherwise. *)
Definition scan_number (s : list ascii) : option (pyval * list ascii) :=
  let (neg, r0) := match s with
                   | "-"%char :: r => (true, r)
                   | _ => (false, s)
                   end in
  let (ip, r1) := match r0 with
                  | "0"%char :: r => (["0"%char], r)
                  | _ => digits r0
                  end in
  match ip with
  | [] => None
  | _ =>
      let (fp, r2) := match r1 with
                      | "."%char :: r =>
                          match digits r with
                          | (d :: ds, r') => ("."%char :: d :: ds, r')
                          | _ => ([], r1)
                          end
                      | _ => ([], r1)
                      end in
      let (ep, r3) := match r2 with
                      | c :: r =>
                          if decide (lower c = "e"%char) then
                            let (sg, r') := match r with
                                            | "-"%char :: t => (["-"%char], t)
                                            | "+"%char :: t => (["+"%char], t)
                                            | _ => ([], r)
                                            end in
                            match digits r' with
                            | (d :: ds, r'') => (c :: sg ++ d :: ds, r'')
                            | _ => ([], r2)
                            end
                          else ([], r2)
                      | [] => ([], r2)
                      end in
      match fp, ep with
      | [], [] =>
          Some (PInt (if neg then - digits_value ip else digits_value ip), r3)
      | _, _ =>
          match float_of_chars ((if neg then ["-"%char] else []) ++ ip ++ fp ++ ep) with
          | Some f => Some (PFloat f, r3)
          | None => None
          end
      end
  end.

(** [s] starts with the characters of [w]: the rest of [s]. *)
Fixpoint keyword (w : string) (s : list ascii) : option (list ascii) :=
  match w, s with
  | EmptyString, _ => Some s
  | String c w', c' :: s' => if decide (c = c') then keyword w' s' else None
  | String _ _, [] => None
  end.

Definition scan_constant (s : list ascii) : option (pyval * list ascii) :=
  match keyword "null" s with Some r => Some (PNone, r) | None =>
  match keyword "true" s with Some r => Some (PBool true, r) | None =>
  match keyword "false" s with Some r => Some (PBool false, r) | None =>
  match keyword "NaN" s with Some r => Some (PFloat nan, r) | None =>
  match keyword "Infinity" s with Some r => Some (PFloat infinity, r) | None =>
  match keyword "-Infinity" s with Some r => Some (PFloat neg_infinity, r) | None =>
  scan_number s
  end end end end end end.

(** One JSON value at the head of [s]; [fuel] bounds the nesting and the
    number of members.  A repeated key of an object keeps its first place
    and its last value, as a Python [dict] does. *)
Fixpoint parse_value (fuel : nat) (s : list ascii) : option (pyval * list ascii) :=
  match fuel with
  | O => None
  | S fuel' =>
      match skip_ws s with
      | [] => None
      | c :: r =>
          if code c =? 123 then                         (* open brace *)
            match skip_ws r with
            | c' :: r' =>
                if code c' =? 125 then Some (PDict [], r')
                else parse_members fuel' (c' :: r') []
            | [] => None
            end
          else if code c =? 91 then                     (* open bracket *)
            match skip_ws r with
            | c' :: r' =>
                if code c' =? 93 then Some (PList [], r')
                else parse_elems fuel' (c' :: r') []
            | [] => None
            end
          else if code c =? 34 then
            match scan_string r [] with
            | Some (str, r') => Some (PStr str, r')
            | None => None
            end
          else scan_constant (c :: r)
      end
  end
with parse_members (fuel : nat) (s : list ascii) (acc : list (string * pyval))
  : option (pyval * list ascii) :=
  match fuel with
  | O => None
  | S fuel' =>
      match skip_ws s with
      | c :: r =>
          if code c =? 34 then
            match scan_string r [] with
            | Some (k, r1) =>
                match skip_ws r1 with
                | c1 :: r2 =>
                    if code c1 =? 58 then               (* colon *)
                      match parse_value fuel' r2 with
                      | Some (v, r3) =>
                          match skip_ws r3 with
                          | c3 :: r4 =>
                              if code c3 =? 44 then     (* comma *)
                                parse_members fuel' r4 (dict_set k v acc)
                              else if code c3 =? 125 then
                                Some (PDict (dict_set k v acc), r4)
                              else None
                          | [] => None
                          end
                      | None => None
                      end
                    else None
                | [] => None
                end
            | None => None
            end
          else None
      | [] => None
      end
  end
with parse_elems (fuel : nat) (s : list ascii) (acc : list pyval)
  : option (pyval * list ascii) :=
  match fuel with
  | O => None
  | S fuel' =>
      match parse_value fuel' s with
      | Some (v, r) =>
          match skip_ws r with
          | c :: r' =>
              if code c =? 44 then parse_elems fuel' r' (acc ++ [v])
              else if code c =? 93 then Some (PList (acc ++ [v]), r')
              else None
          | [] => None
          end
      | None => None
      end
  end.

(** [json.loads(s)]: one value, then nothing but white space. *)
Definition json_loads (s : string) : result pyval :=
  let cs := list_ascii_of_string s in
  match parse_value (2 * length cs + 2) cs with
  | Some (v, r) =>
      match skip_ws r with
      | [] => Ok v
      | _ :: _ => Raise JSONDecodeError
      end
  | None => Raise JSONDecodeError
  end.

(** *** [bytes.decode('utf-8')] *)

Definition cont (b : byte) (lo hi : N) : bool :=
  (N.leb lo (Byte.to_N b)) && (N.leb (Byte.to_N b) hi).

(** The well-formed UTF-8 byte sequences; the text keeps the bytes. *)
Fixpoint utf8_ok (bs : list byte) : bool :=
  match bs with
  | [] => true
  | b :: r =>
      if cont b 0 127 then utf8_ok r
      else match r with
      | b1 :: r1 =>
          if cont b 194 223 then cont b1 128 191 && utf8_ok r1
          else match r1 with
          | b2 :: r2 =>
              if cont b 224 239 then
                cont b1 (if cont b 224 224 then 160 else 128)
                        (if cont b 237 237 then 159 else 191)
                && cont b2 128 191 && utf8_ok r2
              else match r2 with
              | b3 :: r3 =>
                  cont b 240 244
                  && cont b1 (if cont b 240 240 then 144 else 128)
                             (if cont b 244 244 then 143 else 191)
                  && cont b2 128 191 && cont b3 128 191 && utf8_ok r3
              | [] => false
              end
          | [] => false
          end
      | [] => false
      end
  end.

Definition decode_utf8 (bs : list byte) : result string :=
  if utf8_ok bs then Ok (string_of_list_byte bs) else Raise UnicodeDecodeError.

(** *** [time.sleep] *)

(** [time.sleep(x)] on a [float], as CPython 3 does it: the duration is
    taken in nanoseconds as a 64-bit integer, and must not be negative.
    NaN raises [ValueError], a duration outside the 64-bit range
    [OverflowError], a negative one [ValueError]. *)
Definition time_sleep (x : float) : result unit :=
  if is_nan x then Raise ValueError
  else
    let ns := PrimFloat.mul x 1e9%float in
    if PrimFloat.leb (-9223372036854775808)%float ns
       && PrimFloat.ltb ns 9223372036854775808%float
    then if PrimFloat.ltb x 0%float then Raise ValueError else Ok tt
    else Raise OverflowError.

(** Payload literals are written with an apostrophe where the JSON text
    has a double quote. *)
Definition quoted (s : string) : string :=
  string_of_list_ascii
    (map (fun c => if code c =? 39 then ascii_of_nat 34 else c)
         (list_ascii_of_string s)).

End Reference.

(** ** Effects: log records, events and the trace monad *)

(** One constructor per logging call of the driver, with the values the
    call formats into its message.  The one format that can raise on the
    values it receives, the [%d] of the sleeping line, is [format_d]. *)
Inductive logrec : Type :=
  | InfoHost (h : string)
  | InfoTopic (t : string)
  | InfoClient (c : string)
  | InfoPollInterval (p : float)
  | InfoLabelMap (m : gmap string string)
  | DbgConnected
  | DbgSubscribed (t : string)
  | ErrConnectFailed (rc : Z)
  | DbgAdded (qsize : nat) (payload : list byte)
  | DbgQueueSize (qsize : nat)
  | DbgWaiting
  | DbgWorking (qsize : nat) (msg : string)
  | ErrLoadingJSON (msg : string) (e : exn)
  | DbgKeyValue (key : string) (v : pyval)
  | ErrCannotRead (s : string) (v : pyval)
  | DbgSleeping (p : float).

(** What the driver does to the outside world, in order: logging, calls
    of the MQTT client, operations on the queue ([Block n] is a [get] that
    waits [n] seconds on an empty queue), a record handed to the consumer,
    a call of [time.sleep] that returned, with its argument, and an
    exception that leaves the running function. *)
Inductive event : Type :=
  | Log (r : logrec)
  | UsernamePwSet (username password : string)
  | Connect (h : string) (port keepalive : Z)
  | LoopStart
  | Subscribe (t : string) (qos : Z)
  | Put (s : string)
  | Get (s : string)
  | Block (seconds : Z)
  | Yield (p : gmap string pyval)
  | Sleep (seconds : float)
  | Uncaught (e : exn).

(** A computation that logs and acts, then returns or raises. *)
Definition M (A : Type) : Type := list event * result A.

Definition ret {A : Type} (a : A) : M A := ([], Ok a).

Definition bind {A B : Type} (m : M A) (k : A -> M B) : M B :=
  match m with
  | (tr, Ok a) => let (tr', r) := k a in (tr ++ tr', r)
  | (tr, Raise e) => (tr, Raise e)
  end.

Definition emit (e : event) : M unit := ([e], Ok tt).

Definition raise {A : Type} (e : exn) : M A := ([], Raise e).

Definition lift {A : Type} (r : result A) : M A := ([], r).

Declare Scope trace_scope.
Delimit Scope trace_scope with trace.
Notation "'do' x <- m ; k" := (bind m (fun x => k))
  (at level 10, x name, m at level 100, k at level 200) : trace_scope.
Notation "m ;; k" := (bind m (fun _ => k))
  (at level 100, k at level 200, right associativity) : trace_scope.
Local Open Scope trace_scope.

(** The driver object: the attributes [__init__] sets, with the queue
    [queue.Queue()] as the list of its items, head first. *)
Record wxMesh : Type := {
  host : string;
  topic : string;
  username : string;
  password : string;
  client_id : string;
  poll_interval : float;
  label_map : gmap string string;
  payloadQueue : list string;
  connected : bool
}.

Definition set_payloadQueue (self : wxMesh) (q : list string) : wxMesh :=
  {| host := host self; topic := topic self; username := username self;
     password := password self; client_id := client_id self;
     poll_interval := poll_interval self; label_map := label_map self;
     payloadQueue := q; connected := connected self |}.

Definition set_connected (self : wxMesh) (b : bool) : wxMesh :=
  {| host := host self; topic := topic self; username := username self;
     password := password self; client_id := client_id self;
     poll_interval := poll_interval self; label_map := label_map self;
     payloadQueue := payloadQueue self; connected := b |}.

(** The keyword arguments of the constructor: each recognised option is
    absent or present. *)
Record stn_dict : Type := {
  opt_host : option string;
  opt_topic : option string;
  opt_username : option string;
  opt_password : option string;
  opt_client : option string;
  opt_poll_interval : option pyval;
  opt_label_map : option (gmap string string)
}.

(** Where the generator [genLoopPackets] stands between two steps: at the
    top of [while True], at the test of the inner [while], at the call of
    [get], or finished by an exception. *)
Inductive gen_pc : Type :=
  | LoopTop
  | WhileTest
  | QueueGet
  | Raised (e : exn).

(** What happens around the generator: the transport delivers a message or
    a connection result on its own thread, or the generator advances by
    one step with the clock at [now]. *)
Inductive action : Type :=
  | Message (payload : list byte)
  | ConnAck (rc : Z)
  | Resume (now : Z).

(** ** The driver *)

(** ["%d" % x] on a [float]: the conversion to an integer raises
    [ValueError] on NaN and [OverflowError] on an infinity. *)
Definition format_d (x : float) : result unit :=
  match classify x with
  | NaN => Raise ValueError
  | PInf | NInf => Raise OverflowError
  | _ => Ok tt
  end.

(** The functions the driver takes from Python and its libraries:
    [json.loads], [float] on a [str] ([None] for [ValueError]),
    [bytes.decode('utf-8')] and [time.sleep] on a [float]. *)
Class Builtins : Type := {
  json_loads : string -> result pyval;
  float_of_str : string -> option float;
  decode_utf8 : list byte -> result string;
  time_sleep : float -> result unit
}.

Section Driver.

Context `{Builtins}.

(** The builtin [float(x)]. *)
Definition py_float (x : pyval) : result float :=
  match x with
  | PFloat f => Ok f
  | PInt z => float_of_int z
  | PBool b => Ok (if b then 1%float else 0%float)
  | PStr s =>
      match float_of_str s with
      | Some f => Ok f
      | None => Raise ValueError
      end
  | PNone | PList _ | PDict _ => Raise TypeError
  end.

(** [_get_as_float(d, s)].  The second handler, [except e:], names no
    bound variable: when [float] raises anything but [ValueError], looking
    [e] up raises [NameError]. *)
Definition _get_as_float (d : list (string * pyval)) (s : string) : M pyval :=
  match dict_get s d with
  | Some x =>
      match py_float x with
      | Ok f => ret (PFloat f)
      | Raise ValueError => emit (Log (ErrCannotRead s x));; ret PNone
      | Raise _ => raise NameError
      end
  | None => ret PNone
  end.

(** [__init__] on the keyword arguments [stn]; [conn] is the outcome of
    [client.connect].  The sleep of line 99 has the constant argument 4,
    which [time.sleep] accepts. *)
Definition __init__ (stn : stn_dict) (conn : result unit) : M wxMesh :=
  let host := default "localhost" (opt_host stn) in
  let topic := default "weather" (opt_topic stn) in
  let username := default "no default" (opt_username stn) in
  let password := default "no default" (opt_password stn) in
  let client_id := default "wxclient" (opt_client stn) in
  do poll_interval <- lift (py_float (default (PFloat 5.0) (opt_poll_interval stn)));
  let label_map := default ∅ (opt_label_map stn) in
  emit (Log (InfoHost host));;
  emit (Log (InfoTopic topic));;
  emit (Log (InfoClient client_id));;
  emit (Log (InfoPollInterval poll_interval));;
  emit (Log (InfoLabelMap label_map));;
  emit (UsernamePwSet username password);;
  emit (Connect host 1883 60);;
  lift conn;;
  emit (Sleep 4);;
  emit (Log DbgConnected);;
  emit LoopStart;;
  ret {| host := host; topic := topic; username := username;
         password := password; client_id := client_id;
         poll_interval := poll_interval; label_map := label_map;
         payloadQueue := []; connected := false |}.

(** [on_connect]: subscribe when the broker accepted the connection. *)
Definition on_connect (self : wxMesh) (rc : Z) : wxMesh * list event :=
  if decide (rc = 0)
  then (set_connected self true,
        [Subscribe (topic self) 1; Log (DbgSubscribed (topic self))])
  else (self, [Log (ErrConnectFailed rc)]).

(** [on_message]: the decoded payload goes to the tail of the queue; a
    payload that is not UTF-8 raises in the transport's thread. *)
Definition on_message (self : wxMesh) (payload : list byte) : wxMesh * list event :=
  match decode_utf8 payload with
  | Ok s =>
      let q := payloadQueue self ++ [s] in
      (set_payloadQueue self q, [Put s; Log (DbgAdded (length q) payload)])
  | Raise e => (self, [Uncaught e])
  end.

(** The debug line per item of [data] (lines 137-138). *)
Definition log_items (data : list (string * pyval)) : M unit :=
  (map (fun kv => Log (DbgKeyValue kv.1 kv.2)) data, Ok tt).

(** The mapping loop (lines 142-144): for each [vname] of [data] that the
    label map knows, [_packet[label_map.get(vname, vname)]] receives
    [_get_as_float(data, str(vname))]. *)
Fixpoint map_fields (lm : gmap string string) (data : list (string * pyval))
    (vnames : list string) (_packet : gmap string pyval)
  : M (gmap string pyval) :=
  match vnames with
  | [] => ret _packet
  | vname :: rest =>
      match lm !! vname with
      | Some _ =>
          do v <- _get_as_float data vname;
          map_fields lm data rest (<[default vname (lm !! vname) := v]> _packet)
      | None => map_fields lm data rest _packet
      end
  end.

(** The body of the inner loop after [get] (lines 130-146): [Some] packet
    when it reaches [yield], [None] when it ends in [continue]. *)
Definition loop_body (self : wxMesh) (qsize : nat) (now : Z) (msg : string)
  : M (option (gmap string pyval)) :=
  emit (Log (DbgWorking qsize msg));;
  match json_loads msg with
  | Raise e => emit (Log (ErrLoadingJSON msg e));; ret None
  | Ok (PDict d) =>
      let data := dict_set "TIME" (PInt now) d in
      log_items data;;
      do _packet <- map_fields (label_map self) data (dict_keys data)
                      {[ "usUnits" := PInt METRIC ]};
      ret (Some _packet)
  | Ok _ => raise TypeError
  end.

(** The end of a cycle (lines 148-149): the debug line, whose [%d] format
    is applied to the poll interval before anything is logged, then
    [time.sleep(self.poll_interval)]. *)
Definition sleep_poll (self : wxMesh) : M unit :=
  lift (format_d (poll_interval self));;
  emit (Log (DbgSleeping (poll_interval self)));;
  lift (time_sleep (poll_interval self));;
  emit (Sleep (poll_interval self)).

(** One step of [genLoopPackets]. *)
Definition gen_step (now : Z) (st : wxMesh * gen_pc) : (wxMesh * gen_pc) * list event :=
  let (self, pc) := st in
  match pc with
  | LoopTop =>
      ((self, WhileTest),
       [Log (DbgQueueSize (length (payloadQueue self))); Log DbgWaiting])
  | WhileTest =>
      match payloadQueue self with
      | [] =>
          match sleep_poll self with
          | (tr, Ok _) => ((self, LoopTop), tr)
          | (tr, Raise e) => ((self, Raised e), tr ++ [Uncaught e])
          end
      | _ :: _ => ((self, QueueGet), [])
      end
  | QueueGet =>
      match payloadQueue self with
      | [] => ((self, Raised Empty), [Block 3; Uncaught Empty])
      | msg :: q =>
          let self' := set_payloadQueue self q in
          match loop_body self' (length q) now msg with
          | (tr, Ok (Some _packet)) =>
              ((self', WhileTest), Get msg :: tr ++ [Yield _packet])
          | (tr, Ok None) => ((self', WhileTest), Get msg :: tr)
          | (tr, Raise e) => ((self', Raised e), Get msg :: tr ++ [Uncaught e])
          end
      end
  | Raised e => ((self, Raised e), [])
  end.

(** One action of the schedule. *)
Definition step (a : action) (st : wxMesh * gen_pc) : (wxMesh * gen_pc) * list event :=
  match a with
  | Message payload => let (self', tr) := on_message st.1 payload in ((self', st.2), tr)
  | ConnAck rc => let (self', tr) := on_connect st.1 rc in ((self', st.2), tr)
  | Resume now => gen_step now st
  end.

(** A whole schedule, with the trace it leaves. *)
Fixpoint run (acts : list action) (st : wxMesh * gen_pc) : (wxMesh * gen_pc) * list event :=
  match acts with
  | [] => (st, [])
  | a :: acts' =>
      let (st', tr) := step a st in
      let (st'', tr') := run acts' st' in
      (st'', tr ++ tr')
  end.

(** *** Readings of a trace *)

Definition puts (tr : list event) : list string :=
  omap (fun e => match e with Put s => Some s | _ => None end) tr.

Definition gets (tr : list event) : list string :=
  omap (fun e => match e with Get s => Some s | _ => None end) tr.

Definition yields (tr : list event) : list (gmap string pyval) :=
  omap (fun e => match e with Yield p => Some p | _ => None end) tr.

Definition blocks (tr : list event) : list Z :=
  omap (fun e => match e with Block n => Some n | _ => None end) tr.

(** The drains of a trace: the payloads each pass of the inner loop took
    from the queue, a pass ending at the sleep that follows it.  The second
    component is the pass in progress, started with [cur]. *)
Fixpoint drains (cur : list string) (tr : list event)
  : list (list string) * list string :=
  match tr with
  | [] => ([], cur)
  | Get s :: tr' => drains (cur ++ [s]) tr'
  | Sleep _ :: tr' => let (ds, c) := drains [] tr' in (cur :: ds, c)
  | _ :: tr' => drains cur tr'
  end.

(** *** The mapping, read as a function

    What the mapping loop computes when no conversion raises: the value a
    field receives, and the packet after the fields of [vnames]. *)

(** [float] returns, or raises the [ValueError] that [_get_as_float]
    handles. *)
Definition contained (x : pyval) : bool :=
  match py_float x with
  | Ok _ | Raise ValueError => true
  | Raise _ => false
  end.

Definition field_value (data : list (string * pyval)) (k : string) : pyval :=
  match dict_get k data with
  | Some x => match py_float x with Ok f => PFloat f | Raise _ => PNone end
  | None => PNone
  end.

Fixpoint fold_packet (lm : gmap string string) (data : list (string * pyval))
    (vnames : list string) (_packet : gmap string pyval) : gmap string pyval :=
  match vnames with
  | [] => _packet
  | k :: rest =>
      match lm !! k with
      | Some t => fold_packet lm data rest (<[t := field_value data k]> _packet)
      | None => fold_packet lm data rest _packet
      end
  end.

(** The target names of the keys of [vnames] that the label map knows. *)
Definition targets (lm : gmap string string) (vnames : list string) : list string :=
  omap (fun k => lm !! k) vnames.

(** The values of [data] under the keys that the label map knows. *)
Definition mapped_values (lm : gmap string string) (data : list (string * pyval))
  : list pyval :=
  omap (fun k => match lm !! k with
                 | Some _ => dict_get k data
                 | None => None
                 end) (dict_keys data).

(** [float] returns. *)
Definition convertible (x : pyval) : bool :=
  match py_float x with
  | Ok _ => true
  | Raise _ => false
  end.

Definition is_log (e : event) : bool :=
  match e with
  | Log _ => true
  | _ => false
  end.

(** *** Further readings of a trace and of a schedule *)

Definition sleeps (tr : list event) : list float :=
  omap (fun e => match e with Sleep d => Some d | _ => None end) tr.

Definition subscriptions (tr : list event) : list (string * Z) :=
  omap (fun e => match e with Subscribe t qos => Some (t, qos) | _ => None end) tr.

(** The payloads whose decoding failure was logged. *)
Definition decode_errors (tr : list event) : list string :=
  omap (fun e => match e with
                 | Log (ErrLoadingJSON msg _) => Some msg
                 | _ => None
                 end) tr.

(** The connection results of a schedule that report success. *)
Definition is_accepted (a : action) : bool :=
  match a with
  | ConnAck rc => bool_decide (rc = 0)
  | _ => false
  end.

Definition accepted (acts : list action) : nat :=
  length (List.filter is_accepted acts).

(** 1 when an exception has left the generator, 0 while it runs. *)
Definition finished (pc : gen_pc) : nat :=
  match pc with
  | Raised _ => 1
  | _ => 0
  end.

(** The fields of [data] that the label map knows, in iteration order,
    each with its value. *)
Definition mapped_fields (lm : gmap string string) (data : list (string * pyval))
  : list (string * option pyval) :=
  omap (fun k => match lm !! k with
                 | Some _ => Some (k, dict_get k data)
                 | None => None
                 end) (dict_keys data).

End Driver.

(** ** Concrete inputs *)

Module Examples.

#[export] Instance reference : Builtins := {|
  json_loads := Reference.json_loads;
  float_of_str := Reference.float_of_str;
  decode_utf8 := Reference.decode_utf8;
  time_sleep := Reference.time_sleep
|}.

(** The label map of the driver's documentation, in part. *)
Definition labels : gmap string string :=
  {[ "temp" := "outTemp"; "humi" := "outHumidity" ]}.

Definition options (lm : option (gmap string string)) : stn_dict :=
  {| opt_host := None; opt_topic := None; opt_username := None;
     opt_password := None; opt_client := None; opt_poll_interval := None;
     opt_label_map := lm |}.

(** The driver constructed with the label map [lm] and defaults elsewhere. *)
Definition driver (lm : gmap string string) : wxMesh :=
  {| host := "localhost"; topic := "weather"; username := "no default";
     password := "no default"; client_id := "wxclient";
     poll_interval := 5.0; label_map := lm;
     payloadQueue := []; connected := false |}.

(** The driver constructed with the poll interval [p] and defaults
    elsewhere. *)
Definition driver_polling (p : float) : wxMesh :=
  {| host := "localhost"; topic := "weather"; username := "no default";
     password := "no default"; client_id := "wxclient";
     poll_interval := p; label_map := ∅;
     payloadQueue := []; connected := false |}.

Definition options_polling (p : string) : stn_dict :=
  {| opt_host := None; opt_topic := None; opt_username := None;
     opt_password := None; opt_client := None;
     opt_poll_interval := Some (PStr p); opt_label_map := None |}.

(** A payload as the transport delivers it. *)
Definition payload (s : string) : list byte :=
  list_byte_of_string (Reference.quoted s).

Definition text (s : string) : string := Reference.quoted s.

Definition now : Z := 1700000000.

End Examples.

(** ** Properties *)

Section Properties.

Context {B : Builtins}.

(** *** Dictionaries *)

Lemma dict_get_set_eq k v d : dict_get k (dict_set k v d) = Some v.
Proof.
  induction d as [|[k' v'] d IH]; simpl.
  - by rewrite decide_True.
  - destruct (decide (k' = k)) as [->|Hne]; simpl.
    + by rewrite decide_True.
    + by rewrite decide_False.
Qed.

Lemma dict_get_set_ne k k' v d :
  k ≠ k' → dict_get k' (dict_set k v d) = dict_get k' d.
Proof.
  intros Hne. induction d as [|[k0 v0] d IH]; simpl.
  - by rewrite decide_False.
  - destruct (decide (k0 = k)) as [->|Hk]; simpl.
    + by rewrite !decide_False.
    + destruct (decide (k0 = k')); [done | apply IH].
Qed.

Lemma dict_keys_set k k' v d :
  k' ∈ dict_keys (dict_set k v d) ↔ k' = k ∨ k' ∈ dict_keys d.
Proof.
  unfold dict_keys. induction d as [|[k0 v0] d IH]; simpl.
  - rewrite list_elem_of_singleton. set_solver.
  - destruct (decide (k0 = k)) as [->|Hk]; simpl.
    + set_solver.
    + rewrite !elem_of_cons, IH. naive_solver.
Qed.

Lemma dict_get_keys k d : is_Some (dict_get k d) ↔ k ∈ dict_keys d.
Proof.
  unfold dict_keys. induction d as [|[k0 v0] d IH]; simpl.
  - split; [intros [? [=]] | intros ?%elem_of_nil; done].
  - destruct (decide (k0 = k)) as [->|Hk].
    + split; [set_solver | eauto].
    + rewrite IH. set_solver.
Qed.

Lemma dict_set_set k v w d : dict_set k v (dict_set k w d) = dict_set k v d.
Proof.
  induction d as [|[k0 v0] d IH]; simpl.
  - by rewrite decide_True.
  - destruct (decide (k0 = k)) as [->|Hne]; simpl.
    + by rewrite decide_True.
    + by rewrite decide_False, IH.
Qed.

Lemma dict_keys_set_value k v w d :
  dict_keys (dict_set k v d) = dict_keys (dict_set k w d).
Proof.
  unfold dict_keys. induction d as [|[k0 v0] d IH]; simpl; [done|].
  destruct (decide (k0 = k)); simpl; [done | by f_equal].
Qed.

(** *** The conversion of one field *)

Lemma contained_cases x :
  contained x = true →
  (∃ f, py_float x = Ok f) ∨ py_float x = Raise ValueError.
Proof.
  unfold contained. destruct (py_float x) as [f|[]]; eauto; discriminate.
Qed.

Lemma get_as_float_missing d s :
  dict_get s d = None → _get_as_float d s = ([], Ok PNone).
Proof. intros Hs. unfold _get_as_float. by rewrite Hs. Qed.

Lemma get_as_float_converted d s x f :
  dict_get s d = Some x → py_float x = Ok f →
  _get_as_float d s = ([], Ok (PFloat f)).
Proof. intros Hs Hf. unfold _get_as_float. by rewrite Hs, Hf. Qed.

Lemma get_as_float_value_error d s x :
  dict_get s d = Some x → py_float x = Raise ValueError →
  _get_as_float d s = ([Log (ErrCannotRead s x)], Ok PNone).
Proof. intros Hs Hf. unfold _get_as_float. by rewrite Hs, Hf. Qed.

Lemma get_as_float_uncontained d s x :
  dict_get s d = Some x → contained x = false →
  _get_as_float d s = ([], Raise NameError).
Proof.
  intros Hs Hc. unfold _get_as_float, contained in *. rewrite Hs.
  destruct (py_float x) as [f|[]]; done.
Qed.

Lemma get_as_float_Ok d s tr v :
  _get_as_float d s = (tr, Ok v) → v = field_value d s.
Proof.
  unfold _get_as_float, field_value.
  destruct (dict_get s d) as [x|]; [|by intros [= <- <-]].
  destruct (py_float x) as [f|[]]; simpl; by intros [= <- <-] || intros [=].
Qed.

(** Every value [_get_as_float] returns is a [float] or [None]. *)
Lemma field_value_shape d k :
  field_value d k = PNone ∨ ∃ f, field_value d k = PFloat f.
Proof.
  unfold field_value. destruct (dict_get k d) as [x|]; [|by left].
  destruct (py_float x); eauto.
Qed.

(** *** The mapping loop *)

Lemma map_fields_Ok lm data vnames p tr p' :
  map_fields lm data vnames p = (tr, Ok p') →
  p' = fold_packet lm data vnames p.
Proof.
  revert p tr. induction vnames as [|k rest IH]; intros p tr; simpl.
  - by intros [= <- <-].
  - destruct (lm !! k) as [t|] eqn:Hk; simpl; [|apply IH].
    unfold bind. destruct (_get_as_float data k) as [tr1 [v|e]] eqn:Hg; [|done].
    destruct (map_fields lm data rest _) as [tr2 r] eqn:Hm.
    intros [= <- ->]. apply get_as_float_Ok in Hg as ->. by eapply IH.
Qed.

Lemma map_fields_total lm data vnames p :
  (∀ k x, k ∈ vnames → is_Some (lm !! k) → dict_get k data = Some x →
          contained x = true) →
  ∃ tr, map_fields lm data vnames p = (tr, Ok (fold_packet lm data vnames p))
        ∧ (∀ k x, k ∈ vnames → is_Some (lm !! k) → dict_get k data = Some x →
                  py_float x = Raise ValueError → Log (ErrCannotRead k x) ∈ tr)
        ∧ yields tr = [].
Proof.
  revert p. induction vnames as [|k rest IH]; intros p Hc; simpl.
  - exists []. split_and!; [done | | done]. intros k x ?%elem_of_nil; done.
  - destruct (IH p) as (tr0 & E0 & L0 & Y0); [intros; eapply Hc; eauto; set_solver|].
    destruct (lm !! k) as [t|] eqn:Hk; simpl.
    + destruct (IH (<[t := field_value data k]> p)) as (tr2 & E2 & L2 & Y2);
        [intros; eapply Hc; eauto; set_solver|].
      unfold bind.
      destruct (_get_as_float data k) as [tr1 r1] eqn:Hg.
      assert (r1 = Ok (field_value data k) ∧ yields tr1 = [] ∧
              (∀ x, dict_get k data = Some x → py_float x = Raise ValueError →
                    Log (ErrCannotRead k x) ∈ tr1)) as (-> & Y1 & L1).
      { destruct (dict_get k data) as [x|] eqn:Hx.
        - destruct (contained_cases x) as [[f Hf]|Hf];
            [eapply Hc; eauto; set_solver| |].
          + rewrite (get_as_float_converted _ _ _ _ Hx Hf) in Hg.
            injection Hg as <- <-. unfold field_value. rewrite Hx, Hf.
            split_and!; [done..|]. intros ? [= <-]. congruence.
          + rewrite (get_as_float_value_error _ _ _ Hx Hf) in Hg.
            injection Hg as <- <-. unfold field_value. rewrite Hx, Hf.
            split_and!; [done..|]. intros ? [= <-] _. set_solver.
        - rewrite (get_as_float_missing _ _ Hx) in Hg.
          injection Hg as <- <-. unfold field_value. rewrite Hx.
          split_and!; [done..|]. intros ? [=]. }
      rewrite E2. exists (tr1 ++ tr2). split_and!; [done | |].
      * intros k' x [->|Hin]%elem_of_cons Hm Hx Hf.
        -- apply elem_of_app. left. by apply L1.
        -- apply elem_of_app. right. by eapply L2.
      * unfold yields in *. by rewrite omap_app, Y1, Y2.
    + exists tr0. split_and!; [done | | done].
      intros k' x [->|Hin]%elem_of_cons Hm Hx Hf.
      * rewrite Hk in Hm. by destruct Hm.
      * by eapply L0.
Qed.

(** A key with no entry in the label map does not reach the packet. *)
Lemma map_fields_ext lm d1 d2 vnames p :
  (∀ k, k ∈ vnames → is_Some (lm !! k) → dict_get k d1 = dict_get k d2) →
  map_fields lm d1 vnames p = map_fields lm d2 vnames p.
Proof.
  revert p. induction vnames as [|k rest IH]; intros p Hd; simpl; [done|].
  destruct (lm !! k) as [t|] eqn:Hk.
  - unfold _get_as_float. rewrite (Hd k); [|set_solver|by rewrite Hk].
    unfold bind. destruct (dict_get k d2) as [x|].
    + destruct (py_float x) as [f|[]]; simpl; try done;
        rewrite IH; try done; intros; apply Hd; set_solver.
    + simpl. rewrite IH; [done|]. intros; apply Hd; set_solver.
  - apply IH. intros; apply Hd; set_solver.
Qed.

(** *** The packet after the loop *)

Lemma fold_packet_untouched lm data vnames p t :
  t ∉ targets lm vnames → fold_packet lm data vnames p !! t = p !! t.
Proof.
  revert p. induction vnames as [|k rest IH]; intros p Ht; simpl; [done|].
  unfold targets in *. simpl in Ht.
  destruct (lm !! k) as [t'|] eqn:Hk; simpl in Ht.
  - rewrite IH by set_solver. apply lookup_insert_ne. set_solver.
  - by apply IH.
Qed.

Lemma fold_packet_is_Some lm data vnames p t :
  is_Some (p !! t) → is_Some (fold_packet lm data vnames p !! t).
Proof.
  revert p. induction vnames as [|k rest IH]; intros p Ht; simpl; [done|].
  destruct (lm !! k) as [t'|]; [|by apply IH].
  apply IH. destruct (decide (t' = t)) as [->|].
  - rewrite lookup_insert_eq. eauto.
  - by rewrite lookup_insert_ne.
Qed.

Lemma fold_packet_target lm data vnames p k t :
  k ∈ vnames → lm !! k = Some t →
  is_Some (fold_packet lm data vnames p !! t).
Proof.
  revert p. induction vnames as [|k0 rest IH]; intros p Hin Hk; simpl.
  - by apply elem_of_nil in Hin.
  - apply elem_of_cons in Hin as [<-|Hin].
    + rewrite Hk. apply fold_packet_is_Some. rewrite lookup_insert_eq. eauto.
    + destruct (lm !! k0); eauto.
Qed.

(** The value under a target that a single key of [vnames] is mapped to. *)
Lemma fold_packet_unique lm data vnames p k t :
  k ∈ vnames → lm !! k = Some t →
  (∀ k', k' ∈ vnames → lm !! k' = Some t → k' = k) →
  fold_packet lm data vnames p !! t = Some (field_value data k).
Proof.
  revert p. induction vnames as [|k0 rest IH]; intros p Hin Hk Hu; simpl.
  - by apply elem_of_nil in Hin.
  - destruct (decide (k0 = k)) as [->|Hne].
    + rewrite Hk. destruct (decide (k ∈ rest)) as [Hr|Hr].
      * apply IH; [done..|]. intros; apply Hu; set_solver.
      * rewrite fold_packet_untouched; [apply lookup_insert_eq|].
        unfold targets. rewrite list_elem_of_omap. intros (k' & Hk' & Ht').
        rewrite (Hu k') in Hk'; [done | set_solver | done].
    + apply elem_of_cons in Hin as [->|Hin]; [done|].
      destruct (lm !! k0) as [t0|] eqn:Hk0;
        (apply IH; [done..|]; intros; apply Hu; set_solver).
Qed.

Lemma fold_packet_dom lm data vnames p :
  dom (fold_packet lm data vnames p) = dom p ∪ list_to_set (targets lm vnames).
Proof.
  revert p. induction vnames as [|k rest IH]; intros p; simpl.
  - unfold targets. simpl. set_solver.
  - unfold targets in *. simpl. destruct (lm !! k) as [t|]; simpl.
    + rewrite IH, dom_insert_L. set_solver.
    + apply IH.
Qed.

Lemma fold_packet_shape lm data vnames p t v :
  fold_packet lm data vnames p !! t = Some v →
  p !! t = Some v ∨ v = PNone ∨ ∃ f, v = PFloat f.
Proof.
  revert p. induction vnames as [|k rest IH]; intros p; simpl; [eauto|].
  destruct (lm !! k) as [t'|]; [|apply IH].
  intros [Hv|Hv]%IH; [|eauto].
  destruct (decide (t' = t)) as [->|Hne].
  - rewrite lookup_insert_eq in Hv. injection Hv as <-.
    right. apply field_value_shape.
  - rewrite lookup_insert_ne in Hv by done. eauto.
Qed.

(** *** Traces of log records *)

Lemma logs_readings tr cur :
  forallb is_log tr = true →
  puts tr = [] ∧ gets tr = [] ∧ yields tr = [] ∧ blocks tr = []
  ∧ drains cur tr = ([], cur).
Proof.
  induction tr as [|e tr IH]; simpl; [done|].
  intros [He Htr]%andb_prop. destruct e; try discriminate.
  destruct (IH Htr) as (? & ? & ? & ? & ?). by split_and!.
Qed.

Lemma get_as_float_logs d s : forallb is_log (_get_as_float d s).1 = true.
Proof.
  unfold _get_as_float. destruct (dict_get s d) as [x|]; [|done].
  by destruct (py_float x) as [f|[]].
Qed.

Lemma map_fields_logs lm data vnames p :
  forallb is_log (map_fields lm data vnames p).1 = true.
Proof.
  revert p. induction vnames as [|k rest IH]; intros p; simpl; [done|].
  destruct (lm !! k) as [t|]; [|apply IH].
  unfold bind. pose proof (get_as_float_logs data k) as Hg.
  destruct (_get_as_float data k) as [tr1 [v|e]]; [|done].
  specialize (IH (<[t:=v]> p)).
  destruct (map_fields lm data rest _) as [tr2 r]. simpl in *.
  by rewrite forallb_app, Hg, IH.
Qed.

Lemma log_items_logs data : forallb is_log (log_items data).1 = true.
Proof. unfold log_items. simpl. by induction data. Qed.

(** *** The body of the inner loop *)

Lemma dict_or_not (v : pyval) : (∃ d, v = PDict d) ∨ (∀ d, v ≠ PDict d).
Proof. destruct v; eauto. Qed.

Lemma loop_body_decode_error self n now msg e :
  json_loads msg = Raise e →
  loop_body self n now msg
  = ([Log (DbgWorking n msg); Log (ErrLoadingJSON msg e)], Ok None).
Proof. intros He. unfold loop_body. by rewrite He. Qed.

Lemma loop_body_not_dict self n now msg v :
  json_loads msg = Ok v → (∀ d, v ≠ PDict d) →
  loop_body self n now msg = ([Log (DbgWorking n msg)], Raise TypeError).
Proof.
  intros Hv Hd. unfold loop_body. rewrite Hv.
  destruct v; try done. by destruct (Hd d).
Qed.

Lemma loop_body_dict self n now msg d :
  json_loads msg = Ok (PDict d) →
  loop_body self n now msg
  = let data := dict_set "TIME" (PInt now) d in
    let (tr, r) := map_fields (label_map self) data (dict_keys data)
                     {[ "usUnits" := PInt METRIC ]} in
    (Log (DbgWorking n msg) :: (log_items data).1 ++ tr,
     match r with Ok p => Ok (Some p) | Raise e => Raise e end).
Proof.
  intros Hd. unfold loop_body. rewrite Hd. simpl.
  destruct (map_fields _ _ _ _) as [tr [p|e]]; simpl; [|done].
  by rewrite app_nil_r.
Qed.

Lemma loop_body_logs self n now msg :
  forallb is_log (loop_body self n now msg).1 = true.
Proof.
  destruct (json_loads msg) as [v|e] eqn:Hv.
  - destruct (dict_or_not v) as [[d ->]|Hn].
    + rewrite (loop_body_dict _ _ _ _ _ Hv). cbv zeta.
      pose proof (map_fields_logs (label_map self)
        (dict_set "TIME" (PInt now) d)
        (dict_keys (dict_set "TIME" (PInt now) d))
        {[ "usUnits" := PInt METRIC ]}) as Hm.
      destruct (map_fields _ _ _ _) as [tr r]. cbn -[log_items] in *.
      by rewrite forallb_app, log_items_logs, Hm.
    + rewrite (loop_body_not_dict _ _ _ _ _ Hv); done.
  - by rewrite (loop_body_decode_error _ _ _ _ _ Hv).
Qed.

(** A record is produced only from a decoded object, and it is the packet
    of the mapping. *)
Lemma loop_body_Some self n now msg tr p :
  loop_body self n now msg = (tr, Ok (Some p)) →
  ∃ d, json_loads msg = Ok (PDict d)
       ∧ p = fold_packet (label_map self) (dict_set "TIME" (PInt now) d)
               (dict_keys (dict_set "TIME" (PInt now) d))
               {[ "usUnits" := PInt METRIC ]}.
Proof.
  destruct (json_loads msg) as [v|e] eqn:Hv.
  - destruct (dict_or_not v) as [[d ->]|Hn].
    + rewrite (loop_body_dict _ _ _ _ _ Hv). simpl.
      destruct (map_fields _ _ _ _) as [tr' [p'|e]] eqn:Hm; [|done].
      intros [= <- <-]. exists d. split; [done|]. by eapply map_fields_Ok.
    + rewrite (loop_body_not_dict _ _ _ _ _ Hv); done.
  - by rewrite (loop_body_decode_error _ _ _ _ _ Hv).
Qed.

Lemma mapped_values_contained (P : pyval → bool) lm data :
  forallb P (mapped_values lm data) = true →
  ∀ k x, k ∈ dict_keys data → is_Some (lm !! k) → dict_get k data = Some x →
         P x = true.
Proof.
  intros HP k x Hin [t Ht] Hx.
  rewrite forallb_forall in HP. apply HP.
  apply list_elem_of_In. unfold mapped_values. apply list_elem_of_omap.
  exists k. by rewrite Ht.
Qed.

(** When every mapped value converts or fails with [ValueError], the
    record is produced. *)
Lemma loop_body_produces self n now msg d :
  json_loads msg = Ok (PDict d) →
  forallb contained
    (mapped_values (label_map self) (dict_set "TIME" (PInt now) d)) = true →
  ∃ tr, loop_body self n now msg
        = (tr, Ok (Some (fold_packet (label_map self)
                           (dict_set "TIME" (PInt now) d)
                           (dict_keys (dict_set "TIME" (PInt now) d))
                           {[ "usUnits" := PInt METRIC ]})))
        ∧ forallb is_log tr = true
        ∧ ∀ k x, is_Some (label_map self !! k) →
                 dict_get k (dict_set "TIME" (PInt now) d) = Some x →
                 py_float x = Raise ValueError →
                 Log (ErrCannotRead k x) ∈ tr.
Proof.
  intros Hd Hc. pose proof (loop_body_logs self n now msg) as Hl.
  rewrite (loop_body_dict _ _ _ _ _ Hd) in *. simpl in *.
  destruct (map_fields_total (label_map self) (dict_set "TIME" (PInt now) d)
              (dict_keys (dict_set "TIME" (PInt now) d))
              {[ "usUnits" := PInt METRIC ]}) as (tr & E & L & _).
  { intros k x Hin Hm Hx. by eapply mapped_values_contained. }
  rewrite E in *. eexists. split_and!; [done..|].
  intros k x Hm Hx Hf. apply elem_of_cons. right. apply elem_of_app. right.
  eapply L; eauto. apply dict_get_keys. eauto.
Qed.

(** *** The generator *)

(** The three ways the end of a cycle goes: the format and the sleep both
    return, the format raises, or the sleep raises. *)
Lemma sleep_poll_cases self :
  (format_d (poll_interval self) = Ok ()
   ∧ time_sleep (poll_interval self) = Ok ()
   ∧ sleep_poll self
     = ([Log (DbgSleeping (poll_interval self)); Sleep (poll_interval self)],
        Ok ()))
  ∨ (∃ e, format_d (poll_interval self) = Raise e
          ∧ sleep_poll self = ([], Raise e))
  ∨ (∃ e, format_d (poll_interval self) = Ok ()
          ∧ time_sleep (poll_interval self) = Raise e
          ∧ sleep_poll self
            = ([Log (DbgSleeping (poll_interval self))], Raise e)).
Proof.
  unfold sleep_poll.
  destruct (format_d (poll_interval self)) as [[]|e]; simpl; [|eauto].
  destruct (time_sleep (poll_interval self)) as [[]|e]; simpl; eauto 10.
Qed.

Lemma gen_step_get self now msg q :
  payloadQueue self = msg :: q →
  gen_step now (self, QueueGet)
  = match loop_body (set_payloadQueue self q) (length q) now msg with
    | (tr, Ok (Some p)) =>
        ((set_payloadQueue self q, WhileTest), Get msg :: tr ++ [Yield p])
    | (tr, Ok None) => ((set_payloadQueue self q, WhileTest), Get msg :: tr)
    | (tr, Raise e) =>
        ((set_payloadQueue self q, Raised e), Get msg :: tr ++ [Uncaught e])
    end.
Proof. intros Hq. unfold gen_step. by rewrite Hq. Qed.

Lemma readings_app tr1 tr2 :
  puts (tr1 ++ tr2) = puts tr1 ++ puts tr2
  ∧ gets (tr1 ++ tr2) = gets tr1 ++ gets tr2
  ∧ yields (tr1 ++ tr2) = yields tr1 ++ yields tr2
  ∧ blocks (tr1 ++ tr2) = blocks tr1 ++ blocks tr2.
Proof. unfold puts, gets, yields, blocks. by rewrite !omap_app. Qed.

(** A step at [get] takes the head of the queue, and only it. *)
Lemma gen_step_takes_head self now msg q :
  payloadQueue self = msg :: q →
  gets (gen_step now (self, QueueGet)).2 = [msg].
Proof.
  intros Hq. rewrite (gen_step_get _ _ _ _ Hq).
  pose proof (loop_body_logs (set_payloadQueue self q) (length q) now msg) as Hl.
  destruct (loop_body _ _ _ _) as [tr' [[p|]|e']]; simpl in *;
    destruct (logs_readings tr' [] Hl) as (_ & Hg & _).
  - destruct (readings_app tr' [Yield p]) as (_ & Hg' & _).
    change (gets (Get msg :: tr' ++ [Yield p]))
      with (msg :: gets (tr' ++ [Yield p])). by rewrite Hg', Hg.
  - change (gets (Get msg :: tr')) with (msg :: gets tr'). by rewrite Hg.
  - destruct (readings_app tr' [Uncaught e']) as (_ & Hg' & _).
    change (gets (Get msg :: tr' ++ [Uncaught e']))
      with (msg :: gets (tr' ++ [Uncaught e'])). by rewrite Hg', Hg.
Qed.

(** The transport only appends to the queue. *)
Lemma on_message_queue self payload self' tr :
  on_message self payload = (self', tr) →
  payloadQueue self' = payloadQueue self ++ puts tr
  ∧ gets tr = [] ∧ yields tr = [] ∧ blocks tr = []
  ∧ label_map self' = label_map self.
Proof.
  unfold on_message. destruct (decode_utf8 payload) as [s|e];
    intros [= <- <-]; simpl; by rewrite ?app_nil_r.
Qed.

Lemma on_connect_queue self rc self' tr :
  on_connect self rc = (self', tr) →
  payloadQueue self' = payloadQueue self
  ∧ puts tr = [] ∧ gets tr = [] ∧ yields tr = [] ∧ blocks tr = [].
Proof.
  unfold on_connect. destruct (decide (rc = 0)); by intros [= <- <-].
Qed.

(** One step of the generator takes at most the head of the queue, and
    calls [get] only on a queue that the test found non-empty. *)
Lemma gen_step_queue now self pc st' tr :
  gen_step now (self, pc) = (st', tr) →
  (pc = QueueGet → payloadQueue self ≠ []) →
  payloadQueue self = gets tr ++ payloadQueue st'.1
  ∧ puts tr = [] ∧ blocks tr = []
  ∧ (st'.2 = QueueGet → payloadQueue st'.1 ≠ []).
Proof.
  intros Hs Hinv. destruct pc; simpl in Hs.
  - injection Hs as <- <-. by split_and!.
  - destruct (payloadQueue self) as [|m q] eqn:Hq.
    + destruct (sleep_poll_cases self) as [(_ & _ & E)|[(e & _ & E)|(e & _ & _ & E)]];
        rewrite E in Hs; injection Hs as <- <-; simpl; rewrite ?Hq; by split_and!.
    + injection Hs as <- <-. simpl. rewrite Hq. by split_and!.
  - destruct (payloadQueue self) as [|m q] eqn:Hq; [by destruct Hinv|].
    pose proof (loop_body_logs (set_payloadQueue self q) (length q) now m) as Hl.
    destruct (loop_body _ _ _ _) as [tr' [[p|]|e]]; injection Hs as <- <-;
      simpl in Hl; simpl;
      destruct (logs_readings tr' [] Hl) as (Hp & Hg & _ & Hb & _).
    + destruct (readings_app tr' [Yield p]) as (-> & -> & _ & ->).
      by rewrite Hp, Hg, Hb.
    + by rewrite Hp, Hg, Hb.
    + destruct (readings_app tr' [Uncaught e]) as (-> & -> & _ & ->).
      by rewrite Hp, Hg, Hb.
  - injection Hs as <- <-. by split_and!.
Qed.

Lemma run_queue acts : ∀ st st' tr,
  run acts st = (st', tr) →
  (st.2 = QueueGet → payloadQueue st.1 ≠ []) →
  payloadQueue st.1 ++ puts tr = gets tr ++ payloadQueue st'.1
  ∧ blocks tr = [].
Proof.
  induction acts as [|a acts IH]; intros [self pc] st' tr; simpl.
  - intros [= <- <-] _. simpl. by rewrite app_nil_r.
  - destruct (step a (self, pc)) as [st1 tr1] eqn:H1.
    destruct (run acts st1) as [st2 tr2] eqn:H2.
    intros [= <- <-] Hinv.
    destruct (readings_app tr1 tr2) as (-> & -> & _ & ->).
    assert (payloadQueue self ++ puts tr1 = gets tr1 ++ payloadQueue st1.1
            ∧ blocks tr1 = []
            ∧ (st1.2 = QueueGet → payloadQueue st1.1 ≠ [])) as (E1 & B1 & I1).
    { destruct a as [payload|rc|now]; simpl in H1.
      - destruct (on_message self payload) as [self1 t1] eqn:Hm.
        injection H1 as <- <-. simpl.
        apply on_message_queue in Hm as (-> & -> & _ & -> & _).
        split_and!; [done..|]. intros Hpc Hq.
        apply app_eq_nil in Hq as [Hq _]. by apply Hinv.
      - destruct (on_connect self rc) as [self1 t1] eqn:Hc.
        injection H1 as <- <-. simpl.
        apply on_connect_queue in Hc as (-> & -> & -> & _ & ->).
        by rewrite app_nil_r.
      - apply gen_step_queue in H1 as (-> & -> & -> & I); [|done].
        by rewrite app_nil_r. }
    destruct (IH _ _ _ H2 I1) as (E2 & B2).
    split; [|by rewrite B1, B2].
    by rewrite app_assoc, E1, <- !app_assoc, E2.
Qed.

Lemma drains_gets tr : ∀ cur,
  concat (drains cur tr).1 ++ (drains cur tr).2 = cur ++ gets tr.
Proof.
  induction tr as [|e tr IH]; intros cur; simpl.
  - by rewrite app_nil_r.
  - destruct e; try apply IH.
    + change (gets (Get s :: tr)) with (s :: gets tr).
      rewrite IH. by rewrite <- app_assoc.
    + specialize (IH []). destruct (drains [] tr) as [ds c]. simpl in *.
      change (gets (Sleep seconds :: tr)) with (gets tr).
      by rewrite <- app_assoc, IH.
Qed.

(** Once an exception has left the generator, it yields nothing more. *)
Lemma run_raised acts : ∀ self e st' tr,
  run acts (self, Raised e) = (st', tr) →
  st'.2 = Raised e ∧ yields tr = [] ∧ gets tr = [].
Proof.
  induction acts as [|a acts IH]; intros self e st' tr; simpl.
  - by intros [= <- <-].
  - destruct (step a (self, Raised e)) as [st1 tr1] eqn:H1.
    destruct (run acts st1) as [st2 tr2] eqn:H2.
    intros [= <- <-].
    assert (st1.2 = Raised e ∧ yields tr1 = [] ∧ gets tr1 = []) as (P1 & Y1 & G1).
    { destruct a as [payload|rc|now]; simpl in H1.
      - destruct (on_message self payload) as [self1 t1] eqn:Hm.
        injection H1 as <- <-.
        by apply on_message_queue in Hm as (_ & -> & -> & _).
      - destruct (on_connect self rc) as [self1 t1] eqn:Hc.
        injection H1 as <- <-.
        by apply on_connect_queue in Hc as (_ & _ & -> & -> & _).
      - by injection H1 as <- <-. }
    destruct st1 as [self1 pc1]. simpl in P1. subst pc1.
    destruct (IH _ _ _ _ H2) as (P2 & Y2 & G2).
    destruct (readings_app tr1 tr2) as (_ & -> & -> & _).
    by rewrite Y1, Y2, G1, G2.
Qed.

(** *** Decoding failures *)

(** C5.  A queued payload that [json.loads] rejects is taken from the
    queue, the error is logged with the raw text of the payload, no record
    is yielded for it, and the generator is back at the test of its inner
    loop with the rest of the queue: when another payload waits there, the
    next two steps take and process that one. *)
Theorem invalid_json_is_logged_and_skipped
    (self : wxMesh) (now : Z) (msg : string) (q : list string) (e : exn) :
  payloadQueue self = msg :: q →
  json_loads msg = Raise e →
  gen_step now (self, QueueGet)
  = ((set_payloadQueue self q, WhileTest),
     [Get msg; Log (DbgWorking (length q) msg); Log (ErrLoadingJSON msg e)])
  ∧ yields (gen_step now (self, QueueGet)).2 = []
  ∧ ∀ msg' q' now1 now2, q = msg' :: q' →
      gets (run [Resume now1; Resume now2]
              (set_payloadQueue self q, WhileTest)).2 = [msg'].
Proof.
  intros Hq He.
  assert (gen_step now (self, QueueGet)
          = ((set_payloadQueue self q, WhileTest),
             [Get msg; Log (DbgWorking (length q) msg);
              Log (ErrLoadingJSON msg e)])) as Hstep.
  { rewrite (gen_step_get _ _ _ _ Hq).
    by rewrite (loop_body_decode_error _ _ _ _ _ He). }
  split_and!; [done | by rewrite Hstep |].
  intros msg' q' now1 now2 ->. unfold run, step.
  assert (gen_step now1 (set_payloadQueue self (msg' :: q'), WhileTest)
          = ((set_payloadQueue self (msg' :: q'), QueueGet), [])) as -> by done.
  pose proof (gen_step_takes_head (set_payloadQueue self (msg' :: q'))
                now2 msg' q' eq_refl) as Hg.
  destruct (gen_step now2 _) as [st tr]. simpl in *. by rewrite app_nil_r.
Qed.

(** C9.  A queued payload that decodes to a value other than an object
    makes the assignment of [TIME] raise [TypeError] outside any handler:
    the exception leaves the generator, which yields nothing for this
    payload nor for any later one. *)
Theorem non_object_payload_ends_generator
    (self : wxMesh) (now : Z) (msg : string) (q : list string) (v : pyval) :
  payloadQueue self = msg :: q →
  json_loads msg = Ok v →
  (∀ d, v ≠ PDict d) →
  gen_step now (self, QueueGet)
  = ((set_payloadQueue self q, Raised TypeError),
     [Get msg; Log (DbgWorking (length q) msg); Uncaught TypeError])
  ∧ ∀ acts, (run acts (set_payloadQueue self q, Raised TypeError)).1.2
            = Raised TypeError
            ∧ yields (run acts (set_payloadQueue self q, Raised TypeError)).2 = []
            ∧ gets (run acts (set_payloadQueue self q, Raised TypeError)).2 = [].
Proof.
  intros Hq Hv Hd. split.
  - rewrite (gen_step_get _ _ _ _ Hq).
    by rewrite (loop_body_not_dict _ _ _ _ _ Hv Hd).
  - intros acts.
    destruct (run acts (set_payloadQueue self q, Raised TypeError))
      as [st tr] eqn:Hr.
    by apply run_raised in Hr.
Qed.

(** *** The queue and the polling loop *)

Lemma idle_cycle self now1 now2 :
  payloadQueue self = [] →
  run [Resume now1; Resume now2] (self, LoopTop)
  = match sleep_poll self with
    | (tr, Ok _) =>
        ((self, LoopTop), [Log (DbgQueueSize 0); Log DbgWaiting] ++ tr ++ [])
    | (tr, Raise e) =>
        ((self, Raised e),
         [Log (DbgQueueSize 0); Log DbgWaiting] ++ (tr ++ [Uncaught e]) ++ [])
    end.
Proof.
  intros Hq. cbn [run step gen_step]. rewrite Hq.
  by destruct (sleep_poll self) as [tr [[]|e]].
Qed.

(** C8, as the code has it.  A cycle that starts on an empty queue calls
    no [get], blocks on nothing and yields no record, whatever the poll
    interval.  When the [%d] format and [time.sleep] accept the poll
    interval, the cycle logs the queue size, finds the inner loop's test
    false, logs and sleeps for [poll_interval], and stands at the top of
    the next cycle. *)
Theorem empty_queue_cycle_sleeps
    (self : wxMesh) (now1 now2 : Z) :
  payloadQueue self = [] →
  (gets (run [Resume now1; Resume now2] (self, LoopTop)).2 = []
   ∧ blocks (run [Resume now1; Resume now2] (self, LoopTop)).2 = []
   ∧ yields (run [Resume now1; Resume now2] (self, LoopTop)).2 = [])
  ∧ (format_d (poll_interval self) = Ok () →
     time_sleep (poll_interval self) = Ok () →
     run [Resume now1; Resume now2] (self, LoopTop)
     = ((self, LoopTop),
        [Log (DbgQueueSize 0); Log DbgWaiting;
         Log (DbgSleeping (poll_interval self)); Sleep (poll_interval self)])).
Proof.
  intros Hq. rewrite (idle_cycle _ _ _ Hq).
  destruct (sleep_poll_cases self)
    as [(Hf & Ht & E)|[(e & Hf & E)|(e & Hf & Ht & E)]]; rewrite E.
  - by split.
  - split; [done|]. intros Hf'. congruence.
  - split; [done|]. intros _ Ht'. congruence.
Qed.

Lemma drains_logs_app tr1 tr2 cur :
  forallb is_log tr1 = true → drains cur (tr1 ++ tr2) = drains cur tr2.
Proof.
  induction tr1 as [|e tr1 IH]; simpl; [done|].
  intros [He Htr]%andb_prop. destruct e; try discriminate. by apply IH.
Qed.

(** A pass of the inner loop that no delivery and no exception interrupts
    takes the whole queue, in order, and ends at the sleep. *)
Lemma quiet_pass q : ∀ self nows st tr cur,
  payloadQueue self = q →
  length nows = (2 * length q + 1)%nat →
  run (Resume <$> nows) (self, WhileTest) = (st, tr) →
  (∀ e, st.2 ≠ Raised e) →
  drains cur tr = ([cur ++ q], []) ∧ payloadQueue st.1 = [] ∧ st.2 = LoopTop.
Proof.
  induction q as [|m q IH]; intros self nows st tr cur Hq Hlen Hr Hne.
  - destruct nows as [|n1 nows]; [simpl in Hlen; lia|].
    destruct nows as [|n2 nows]; [|simpl in Hlen; lia].
    change (Resume <$> [n1]) with [Resume n1] in Hr.
    cbn [run step gen_step] in Hr. rewrite Hq in Hr.
    destruct (sleep_poll_cases self)
      as [(_ & _ & E)|[(e & _ & E)|(e & _ & _ & E)]]; rewrite E in Hr;
      injection Hr as <- <-; [|by destruct (Hne e)..].
    simpl. by rewrite app_nil_r.
  - destruct nows as [|n1 nows]; [simpl in Hlen; lia|].
    destruct nows as [|n2 nows]; [simpl in Hlen; lia|].
    simpl in Hlen. assert (length nows = (2 * length q + 1)%nat) as Hlen' by lia.
    change (Resume <$> n1 :: n2 :: nows)
      with (Resume n1 :: Resume n2 :: (Resume <$> nows)) in Hr.
    cbn [run step] in Hr.
    assert (gen_step n1 (self, WhileTest) = ((self, QueueGet), [])) as E1
      by (simpl; by rewrite Hq).
    rewrite E1, (gen_step_get _ _ _ _ Hq) in Hr.
    pose proof (loop_body_logs (set_payloadQueue self q) (length q) n2 m) as Hl.
    destruct (loop_body _ _ _ _) as [tr' [[p|]|e]]; simpl in Hl.
    + destruct (run (Resume <$> nows) (set_payloadQueue self q, WhileTest))
        as [st2 tr2] eqn:H2.
      injection Hr as <- <-.
      destruct (IH (set_payloadQueue self q) _ _ _ (cur ++ [m]) eq_refl Hlen' H2 Hne)
        as (D & Q & P).
      split_and!; [|done..].
      simpl. rewrite <- (app_assoc tr' [Yield p] tr2), drains_logs_app by done.
      simpl. by rewrite D, <- app_assoc.
    + destruct (run (Resume <$> nows) (set_payloadQueue self q, WhileTest))
        as [st2 tr2] eqn:H2.
      injection Hr as <- <-.
      destruct (IH (set_payloadQueue self q) _ _ _ (cur ++ [m]) eq_refl Hlen' H2 Hne)
        as (D & Q & P).
      split_and!; [|done..].
      simpl. rewrite drains_logs_app by done. by rewrite D, <- app_assoc.
    + destruct (run (Resume <$> nows) (set_payloadQueue self q, Raised e))
        as [st2 tr2] eqn:H2.
      injection Hr as <- <-.
      apply run_raised in H2 as (P & _). by destruct (Hne e).
Qed.

(** C6.  Whatever the interleaving of deliveries by the transport and
    steps of the generator: the payloads of the finished drains, then
    those of the drain in progress, then those still queued, are the
    payloads queued at the start followed by the enqueued ones in their
    order of arrival, each at its one place, and no [get] ever blocks.
    A pass of the inner loop that runs to its sleep without a delivery or
    an exception in between has the whole queue as its drain, in order,
    and leaves the queue empty. *)
Theorem queue_is_fifo_and_exactly_once
    (self : wxMesh) (acts : list action) (nows : list Z) :
  (concat (drains [] (run acts (self, LoopTop)).2).1
     ++ (drains [] (run acts (self, LoopTop)).2).2
     ++ payloadQueue (run acts (self, LoopTop)).1.1
   = payloadQueue self ++ puts (run acts (self, LoopTop)).2
   ∧ blocks (run acts (self, LoopTop)).2 = [])
  ∧ (length nows = (2 * length (payloadQueue self) + 1)%nat →
     (∀ e, (run (Resume <$> nows) (self, WhileTest)).1.2 ≠ Raised e) →
     drains [] (run (Resume <$> nows) (self, WhileTest)).2
     = ([payloadQueue self], [])
     ∧ payloadQueue (run (Resume <$> nows) (self, WhileTest)).1.1 = []
     ∧ (run (Resume <$> nows) (self, WhileTest)).1.2 = LoopTop).
Proof.
  split.
  - destruct (run acts (self, LoopTop)) as [st tr] eqn:Hr.
    apply run_queue in Hr as (E & Hb); [|done]. simpl in *.
    by rewrite app_assoc, drains_gets, E.
  - intros Hlen Hne.
    destruct (run (Resume <$> nows) (self, WhileTest)) as [st tr] eqn:Hr.
    by apply (quiet_pass (payloadQueue self) self nows st tr []).
Qed.

(** *** The mapping of one decoded message *)

(** The decoded object after [data['TIME'] = int(time.time())]. *)
Local Abbreviation stamp now d := (dict_set "TIME" (PInt now) d).

Lemma empty_targets_fold lm data vnames p :
  targets lm vnames = [] → fold_packet lm data vnames p = p.
Proof.
  revert p. induction vnames as [|k rest IH]; intros p; simpl; [done|].
  unfold targets in *. simpl. destruct (lm !! k); [done | apply IH].
Qed.

Lemma empty_targets_values lm data :
  targets lm (dict_keys data) = [] → mapped_values lm data = [].
Proof.
  unfold mapped_values, targets. generalize (dict_keys data) as ks.
  induction ks as [|k ks IH]; simpl; [done|].
  destruct (lm !! k); [done | apply IH].
Qed.

(** C1, as the code has it.  In a decoded object whose mapped values all
    convert or fail with [ValueError], a mapped key [k] whose value [x]
    [float] rejects with [ValueError] has its conversion error logged and
    the record is still produced; the target name is present in the
    record, and it holds [None] when [k] is the only key mapped to it. *)
Theorem unparseable_field_maps_to_None
    (self : wxMesh) (n : nat) (now : Z) (msg : string)
    (d : list (string * pyval)) (k t : string) (x : pyval) :
  json_loads msg = Ok (PDict d) →
  forallb contained (mapped_values (label_map self) (stamp now d)) = true →
  dict_get k (stamp now d) = Some x →
  label_map self !! k = Some t →
  py_float x = Raise ValueError →
  ∃ tr p,
    loop_body self n now msg = (tr, Ok (Some p))
    ∧ Log (ErrCannotRead k x) ∈ tr
    ∧ is_Some (p !! t)
    ∧ ((∀ k', k' ∈ dict_keys (stamp now d) →
              label_map self !! k' = Some t → k' = k) →
       p !! t = Some PNone).
Proof.
  intros Hd Hc Hx Ht Hf.
  destruct (loop_body_produces self n now msg d Hd Hc) as (tr & E & _ & L).
  assert (k ∈ dict_keys (stamp now d)) as Hin by (apply dict_get_keys; eauto).
  eexists _, _. split_and!; [exact E | | |].
  - eapply L; eauto.
  - by eapply fold_packet_target.
  - intros Hu. rewrite (fold_packet_unique _ _ _ _ k t) by done.
    unfold field_value. by rewrite Hx, Hf.
Qed.

(** C7, as the code has it.  Every record produced from a decoded object
    has the key [usUnits]; its value is [METRIC] whenever the label map
    sends no key of the message to the name [usUnits].  The record is
    produced, with that tag, when every mapped value fails with
    [ValueError], and it is the tag alone when no key is mapped. *)
Theorem unit_tag_present_in_every_record
    (self : wxMesh) (n : nat) (now : Z) (msg : string)
    (d : list (string * pyval)) :
  json_loads msg = Ok (PDict d) →
  (∀ tr p, loop_body self n now msg = (tr, Ok (Some p)) →
     is_Some (p !! "usUnits")
     ∧ ("usUnits" ∉ targets (label_map self) (dict_keys (stamp now d)) →
        p !! "usUnits" = Some (PInt METRIC)))
  ∧ (Forall (λ x, py_float x = Raise ValueError)
       (mapped_values (label_map self) (stamp now d)) →
     "usUnits" ∉ targets (label_map self) (dict_keys (stamp now d)) →
     ∃ tr p, loop_body self n now msg = (tr, Ok (Some p))
             ∧ p !! "usUnits" = Some (PInt METRIC))
  ∧ (targets (label_map self) (dict_keys (stamp now d)) = [] →
     ∃ tr, loop_body self n now msg
           = (tr, Ok (Some {[ "usUnits" := PInt METRIC ]}))).
Proof.
  intros Hd. split_and!.
  - intros tr p (d' & Hd' & ->)%loop_body_Some.
    rewrite Hd in Hd'. injection Hd' as <-. split.
    + apply fold_packet_is_Some. rewrite lookup_singleton_eq. eauto.
    + intros Hu. rewrite fold_packet_untouched by done.
      apply lookup_singleton_eq.
  - intros Hall Hu.
    destruct (loop_body_produces self n now msg d Hd) as (tr & E & _).
    { apply forallb_forall. intros x Hx%list_elem_of_In.
      rewrite Forall_forall in Hall. unfold contained. by rewrite (Hall x Hx). }
    eexists _, _. split; [exact E|].
    rewrite fold_packet_untouched by done. apply lookup_singleton_eq.
  - intros Ht.
    destruct (loop_body_produces self n now msg d Hd) as (tr & E & _).
    { by rewrite empty_targets_values. }
    exists tr. by rewrite E, empty_targets_fold.
Qed.

(** C2, as the code has it.  The clock reaches a record only through the
    label map: when the map has an entry for [TIME] and no other key of
    the message shares its target, the record holds the local time of the
    mapping under that target, whatever [TIME] the payload carried; when
    the map has no entry for [TIME], the outcome is the same at every
    clock reading and for every [TIME] value of the payload. *)
Theorem timestamp_follows_label_map
    (self : wxMesh) (n : nat) (now : Z) (msg : string)
    (d : list (string * pyval)) :
  json_loads msg = Ok (PDict d) →
  (∀ t f,
     label_map self !! "TIME" = Some t →
     float_of_int now = Ok f →
     forallb contained (mapped_values (label_map self) (stamp now d)) = true →
     (∀ k', k' ∈ dict_keys d → label_map self !! k' = Some t → k' = "TIME") →
     ∃ tr p, loop_body self n now msg = (tr, Ok (Some p))
             ∧ p !! t = Some (PFloat f))
  ∧ (label_map self !! "TIME" = None →
     ∀ now' msg' x,
       json_loads msg' = Ok (PDict (dict_set "TIME" x d)) →
       (loop_body self n now' msg').2 = (loop_body self n now msg).2).
Proof.
  intros Hd. split.
  - intros t f Ht Hf Hc Hu.
    destruct (loop_body_produces self n now msg d Hd Hc) as (tr & E & _).
    eexists _, _. split; [exact E|].
    rewrite (fold_packet_unique _ _ _ _ "TIME" t).
    + unfold field_value. rewrite dict_get_set_eq. simpl. by rewrite Hf.
    + apply dict_keys_set. by left.
    + done.
    + intros k' [->|Hin]%dict_keys_set Hk'; [done | by apply Hu].
  - intros Ht now' msg' x Hd'.
    rewrite (loop_body_dict _ _ _ _ _ Hd), (loop_body_dict _ _ _ _ _ Hd').
    cbv zeta.
    rewrite dict_set_set, (dict_keys_set_value "TIME" (PInt now') (PInt now)).
    rewrite (map_fields_ext (label_map self) (stamp now' d) (stamp now d)).
    + by destruct (map_fields _ _ _ _) as [tr r].
    + intros k _ Hk. destruct (decide (k = "TIME")) as [->|Hne].
      * rewrite Ht in Hk. by destruct Hk.
      * by rewrite !dict_get_set_ne.
Qed.

(** C4, as the code has it.  A queued payload that decodes to an object
    whose mapped values all convert yields one record: its keys are
    [usUnits] and the targets of the mapped keys of the message (the
    target of [TIME] among them only when the label map names it), and a
    target that a single key is mapped to holds that key's float. *)
Theorem convertible_fields_yield_one_record
    (self : wxMesh) (now : Z) (msg : string) (q : list string)
    (d : list (string * pyval)) :
  payloadQueue self = msg :: q →
  json_loads msg = Ok (PDict d) →
  forallb convertible (mapped_values (label_map self) (stamp now d)) = true →
  ∃ tr p,
    gen_step now (self, QueueGet) = ((set_payloadQueue self q, WhileTest), tr)
    ∧ yields tr = [p]
    ∧ dom p = {[ "usUnits" ]}
              ∪ list_to_set (targets (label_map self) (dict_keys (stamp now d)))
    ∧ ∀ k t x f,
        dict_get k (stamp now d) = Some x →
        label_map self !! k = Some t →
        py_float x = Ok f →
        (∀ k', k' ∈ dict_keys (stamp now d) →
               label_map self !! k' = Some t → k' = k) →
        p !! t = Some (PFloat f).
Proof.
  intros Hq Hd Hc.
  destruct (loop_body_produces (set_payloadQueue self q) (length q) now msg d Hd)
    as (tr & E & Hl & _).
  { apply forallb_forall. intros x Hx. rewrite forallb_forall in Hc.
    specialize (Hc x Hx). unfold convertible, contained in *.
    by destruct (py_float x). }
  simpl in E. eexists _, _. split_and!.
  - rewrite (gen_step_get _ _ _ _ Hq), E. reflexivity.
  - destruct (logs_readings tr [] Hl) as (_ & _ & Hy & _).
    change (yields (Get msg :: tr ++ [Yield ?p])) with (yields (tr ++ [Yield p])).
    destruct (readings_app tr [Yield (fold_packet (label_map self) (stamp now d)
                (dict_keys (stamp now d)) {[ "usUnits" := PInt METRIC ]})])
      as (_ & _ & -> & _).
    by rewrite Hy.
  - by rewrite fold_packet_dom, dom_singleton_L.
  - intros k t x f Hx Ht Hf Hu.
    rewrite (fold_packet_unique _ _ _ _ k t); [|apply dict_get_keys; eauto|done..].
    unfold field_value. by rewrite Hx, Hf.
Qed.

(** *** Construction *)

Lemma map_fields_no_labels data vnames p :
  map_fields ∅ data vnames p = ([], Ok p).
Proof. induction vnames as [|k rest IH]; simpl; [done|]. by rewrite lookup_empty. Qed.

(** C10.  The constructor fails only when [connect] fails or a supplied
    poll interval does not convert.  Otherwise each option absent from
    the arguments has its default: host [localhost], topic [weather],
    client id [wxclient], poll interval [5.0], and the empty label map,
    with which every decoded object yields the unit tag alone. *)
Theorem absent_options_take_defaults (stn : stn_dict) (conn : result unit) :
  match (__init__ stn conn).2 with
  | Raise e =>
      conn = Raise e
      ∨ ∃ x, opt_poll_interval stn = Some x ∧ py_float x = Raise e
  | Ok self =>
      (opt_host stn = None → host self = "localhost")
      ∧ (opt_topic stn = None → topic self = "weather")
      ∧ (opt_client stn = None → client_id self = "wxclient")
      ∧ (opt_poll_interval stn = None → poll_interval self = 5.0%float)
      ∧ (opt_label_map stn = None →
         label_map self = ∅
         ∧ ∀ n now msg d,
             json_loads msg = Ok (PDict d) →
             (loop_body self n now msg).2
             = Ok (Some {[ "usUnits" := PInt METRIC ]}))
      ∧ payloadQueue self = []
  end.
Proof.
  unfold __init__.
  destruct (opt_poll_interval stn) as [x|] eqn:Hp; simpl.
  - destruct (py_float x) as [f|e] eqn:Hf; simpl; [|eauto].
    destruct conn as [[]|e]; simpl; [|eauto].
    split_and!; try done; try (by intros ->).
    intros ->. split; [done|]. intros n now msg d Hd.
    rewrite (loop_body_dict _ _ _ _ _ Hd). simpl.
    by rewrite map_fields_no_labels.
  - destruct conn as [[]|e]; simpl; [|eauto].
    split_and!; try done; try (by intros ->).
    intros ->. split; [done|]. intros n now msg d Hd.
    rewrite (loop_body_dict _ _ _ _ _ Hd). simpl.
    by rewrite map_fields_no_labels.
Qed.

(** *** What a field value does to the conversion *)

Lemma float_of_int_raises z e : float_of_int z = Raise e → e = OverflowError.
Proof.
  unfold float_of_int. destruct (binary_normalize _ _ _ _ _); by intros [= <-].
Qed.

(** X1.  What [_get_as_float] does with each kind of value: a missing key
    gives [None] silently; a float, a boolean (1.0 or 0.0), an integer
    within the float range and a numeric string give their float; a
    string that is not numeric gives [None] with one error logged; and
    [None], a list, a dictionary or an integer beyond the float range make
    [NameError] leave the function, with nothing logged. *)
Theorem get_as_float_by_kind_of_value (d : list (string * pyval)) (s : string) :
  match dict_get s d with
  | None => _get_as_float d s = ([], Ok PNone)
  | Some (PFloat f) => _get_as_float d s = ([], Ok (PFloat f))
  | Some (PBool b) =>
      _get_as_float d s = ([], Ok (PFloat (if b then 1%float else 0%float)))
  | Some (PInt z) =>
      match float_of_int z with
      | Ok f => _get_as_float d s = ([], Ok (PFloat f))
      | Raise _ => _get_as_float d s = ([], Raise NameError)
      end
  | Some (PStr str) =>
      match float_of_str str with
      | Some f => _get_as_float d s = ([], Ok (PFloat f))
      | None =>
          _get_as_float d s = ([Log (ErrCannotRead s (PStr str))], Ok PNone)
      end
  | Some PNone | Some (PList _) | Some (PDict _) =>
      _get_as_float d s = ([], Raise NameError)
  end.
Proof.
  unfold _get_as_float. destruct (dict_get s d) as [[| | z | | str | |]|]; simpl; try done.
  - destruct (float_of_int z) as [f|e] eqn:Hz; [done|].
    by apply float_of_int_raises in Hz as ->.
  - by destruct (float_of_str str).
Qed.

Lemma get_as_float_Raise d s tr e :
  _get_as_float d s = (tr, Raise e) →
  e = NameError ∧ ∃ x, dict_get s d = Some x ∧ contained x = false.
Proof.
  unfold _get_as_float, contained. destruct (dict_get s d) as [x|] eqn:Hx; [|done].
  destruct (py_float x) as [f|[]] eqn:Hf; simpl; intros [=]; subst.
  all: split; [done|]; exists x; split; [done|]; by rewrite Hf.
Qed.

Lemma map_fields_Raise lm data vnames p tr e :
  map_fields lm data vnames p = (tr, Raise e) → e = NameError.
Proof.
  revert p tr. induction vnames as [|k rest IH]; intros p tr; simpl; [done|].
  destruct (lm !! k) as [t|]; [|apply IH].
  unfold bind. destruct (_get_as_float data k) as [tr1 [v|e1]] eqn:Hg.
  - destruct (map_fields lm data rest _) as [tr2 r] eqn:Hm.
    intros [= <- ->]. by eapply IH.
  - intros [= <- <-]. by apply get_as_float_Raise in Hg as [-> _].
Qed.

Lemma map_fields_uncontained lm data vnames p k x :
  k ∈ vnames → is_Some (lm !! k) → dict_get k data = Some x →
  contained x = false →
  (map_fields lm data vnames p).2 = Raise NameError.
Proof.
  intros Hin Hk Hx Hc. revert p.
  induction vnames as [|k0 rest IH]; intros p; [by apply elem_of_nil in Hin|].
  simpl. destruct (decide (k0 = k)) as [->|Hne].
  - destruct Hk as [t ->]. by rewrite (get_as_float_uncontained _ _ _ Hx Hc).
  - apply elem_of_cons in Hin as [->|Hin]; [done|].
    destruct (lm !! k0) as [t0|]; [|by apply IH].
    unfold bind. destruct (_get_as_float data k0) as [tr1 [v|e1]] eqn:Hg.
    + specialize (IH Hin (<[t0:=v]> p)).
      destruct (map_fields lm data rest _) as [tr2 r]. done.
    + by apply get_as_float_Raise in Hg as [-> _].
Qed.

Lemma loop_body_Raise self n now msg tr e :
  loop_body self n now msg = (tr, Raise e) → e = TypeError ∨ e = NameError.
Proof.
  destruct (json_loads msg) as [v|e'] eqn:Hv.
  - destruct (dict_or_not v) as [[d ->]|Hn].
    + rewrite (loop_body_dict _ _ _ _ _ Hv). cbv zeta.
      destruct (map_fields _ _ _ _) as [tr' [p'|e1]] eqn:Hm; [done|].
      intros [= <- <-]. right. by eapply map_fields_Raise.
    + rewrite (loop_body_not_dict _ _ _ _ _ Hv Hn). intros [= <- <-]. by left.
  - by rewrite (loop_body_decode_error _ _ _ _ _ Hv).
Qed.

(** X2.  A queued payload that decodes to an object in which some mapped
    key holds a value on which [float] raises anything but [ValueError]
    ends the generator: the payload is taken from the queue, [NameError]
    leaves the generator and no record is yielded. *)
Theorem unconvertible_mapped_value_ends_generator
    (self : wxMesh) (now : Z) (msg : string) (q : list string)
    (d : list (string * pyval)) (k : string) (x : pyval) :
  payloadQueue self = msg :: q →
  json_loads msg = Ok (PDict d) →
  is_Some (label_map self !! k) →
  dict_get k (stamp now d) = Some x →
  contained x = false →
  (gen_step now (self, QueueGet)).1 = (set_payloadQueue self q, Raised NameError)
  ∧ yields (gen_step now (self, QueueGet)).2 = []
  ∧ Uncaught NameError ∈ (gen_step now (self, QueueGet)).2.
Proof.
  intros Hq Hd Hk Hx Hc. rewrite (gen_step_get _ _ _ _ Hq).
  assert (∃ tr, loop_body (set_payloadQueue self q) (length q) now msg
                = (tr, Raise NameError) ∧ forallb is_log tr = true)
    as (tr & E & Hl).
  { pose proof (loop_body_logs (set_payloadQueue self q) (length q) now msg) as Hl.
    rewrite (loop_body_dict _ _ _ _ _ Hd) in *. cbv zeta in *.
    assert (k ∈ dict_keys (stamp now d)) as Hin by (apply dict_get_keys; eauto).
    pose proof (map_fields_uncontained (label_map (set_payloadQueue self q))
      (stamp now d) (dict_keys (stamp now d)) {[ "usUnits" := PInt METRIC ]}
      k x Hin Hk Hx Hc) as Hm.
    destruct (map_fields _ _ _ _) as [tr r]. simpl in Hm. subst r.
    eexists. split; [reflexivity | exact Hl]. }
  rewrite E. cbn [fst snd].
  destruct (logs_readings tr [] Hl) as (_ & _ & Hy & _).
  split_and!; [done | |].
  - change (yields (Get msg :: ?l)) with (yields l).
    destruct (readings_app tr [Uncaught NameError]) as (_ & _ & -> & _).
    by rewrite Hy.
  - set_solver.
Qed.

(** *** What a schedule leaves unchanged *)

Lemma sleeps_app tr1 tr2 : sleeps (tr1 ++ tr2) = sleeps tr1 ++ sleeps tr2.
Proof. unfold sleeps. by rewrite omap_app. Qed.

Lemma subscriptions_app tr1 tr2 :
  subscriptions (tr1 ++ tr2) = subscriptions tr1 ++ subscriptions tr2.
Proof. unfold subscriptions. by rewrite omap_app. Qed.

Lemma logs_no_sleep tr :
  forallb is_log tr = true → sleeps tr = [] ∧ subscriptions tr = [].
Proof.
  induction tr as [|e tr IH]; simpl; [done|].
  intros [He Htr]%andb_prop. destruct e; try discriminate. by apply IH.
Qed.

(** The trace of a step at [get]: the payload, log records, and at most
    one closing event. *)
Lemma gen_step_get_shape self now m q :
  payloadQueue self = m :: q →
  ∃ tr' last,
    (gen_step now (self, QueueGet)).2 = Get m :: tr' ++ last
    ∧ forallb is_log tr' = true
    ∧ (last = [] ∨ (∃ p, last = [Yield p]) ∨ ∃ e, last = [Uncaught e])
    ∧ (gen_step now (self, QueueGet)).1.1 = set_payloadQueue self q.
Proof.
  intros Hq. rewrite (gen_step_get _ _ _ _ Hq).
  pose proof (loop_body_logs (set_payloadQueue self q) (length q) now m) as Hl.
  destruct (loop_body _ _ _ _) as [tr' [[p|]|e]]; simpl in *.
  - exists tr', [Yield p]. naive_solver.
  - exists tr', []. rewrite app_nil_r. naive_solver.
  - exists tr', [Uncaught e]. naive_solver.
Qed.

Lemma step_config a st :
  host (step a st).1.1 = host st.1
  ∧ topic (step a st).1.1 = topic st.1
  ∧ username (step a st).1.1 = username st.1
  ∧ password (step a st).1.1 = password st.1
  ∧ client_id (step a st).1.1 = client_id st.1
  ∧ poll_interval (step a st).1.1 = poll_interval st.1
  ∧ label_map (step a st).1.1 = label_map st.1
  ∧ Forall (λ s, s = poll_interval st.1) (sleeps (step a st).2)
  ∧ connected (step a st).1.1 = connected st.1 || is_accepted a
  ∧ subscriptions (step a st).2
    = if is_accepted a then [(topic st.1, 1)] else [].
Proof.
  destruct st as [self pc]. destruct a as [payload|rc|now]; cbn [step fst snd is_accepted].
  - unfold on_message. destruct (decode_utf8 payload) as [s|e]; simpl;
      rewrite orb_false_r; by split_and!.
  - unfold on_connect. destruct (decide (rc = 0)) as [->|Hne]; simpl.
    + rewrite orb_true_r. by split_and!.
    + rewrite bool_decide_eq_false_2 by done. rewrite orb_false_r. by split_and!.
  - rewrite orb_false_r. destruct pc.
    + simpl. by split_and!.
    + cbn [gen_step]. destruct (payloadQueue self) as [|m q].
      * destruct (sleep_poll_cases self)
          as [(_ & _ & E)|[(e & _ & E)|(e & _ & _ & E)]]; rewrite E; simpl;
          split_and!; try done; by repeat constructor.
      * simpl. by split_and!.
    + destruct (payloadQueue self) as [|m q] eqn:Hq.
      * simpl. rewrite Hq. simpl. by split_and!.
      * destruct (gen_step_get_shape self now m q Hq) as (tr' & l & -> & Hl & Hlast & ->).
        apply logs_no_sleep in Hl as (Hs & Hsub).
        change (sleeps (Get m :: ?t)) with (sleeps t).
        change (subscriptions (Get m :: ?t)) with (subscriptions t).
        rewrite sleeps_app, subscriptions_app, Hs, Hsub.
        destruct Hlast as [->|[[p ->]|[e ->]]]; simpl; by split_and!.
    + simpl. by split_and!.
Qed.

(** X8.  No delivery, connection result or generator step changes the
    configuration of the driver (host, topic, credentials, client id,
    poll interval, label map), and every sleep of the generator lasts the
    poll interval. *)
Theorem configuration_is_fixed_and_sleeps_are_poll_intervals
    (self : wxMesh) (pc : gen_pc) (acts : list action) :
  host (run acts (self, pc)).1.1 = host self
  ∧ topic (run acts (self, pc)).1.1 = topic self
  ∧ username (run acts (self, pc)).1.1 = username self
  ∧ password (run acts (self, pc)).1.1 = password self
  ∧ client_id (run acts (self, pc)).1.1 = client_id self
  ∧ poll_interval (run acts (self, pc)).1.1 = poll_interval self
  ∧ label_map (run acts (self, pc)).1.1 = label_map self
  ∧ Forall (λ s, s = poll_interval self) (sleeps (run acts (self, pc)).2).
Proof.
  revert self pc. induction acts as [|a acts IH]; intros self pc; simpl.
  - by split_and!.
  - destruct (step_config a (self, pc)) as (H1 & H2 & H3 & H4 & H5 & H6 & H7 & H8 & _).
    destruct (step a (self, pc)) as [[self1 pc1] tr1]. simpl in *.
    destruct (IH self1 pc1) as (I1 & I2 & I3 & I4 & I5 & I6 & I7 & I8).
    destruct (run acts (self1, pc1)) as [st2 tr2]. simpl in *.
    split_and!; try congruence.
    rewrite sleeps_app. apply Forall_app. split; [done|].
    by rewrite <- H6.
Qed.

(** X9.  Each connection result that reports success issues one
    subscription to the configured topic at QoS 1, a failed one issues
    none, and [connected] is true exactly when it was true before or some
    result of the schedule reported success: nothing resets it. *)
Theorem each_accepted_connection_subscribes_once
    (self : wxMesh) (pc : gen_pc) (acts : list action) :
  connected (run acts (self, pc)).1.1 = connected self || existsb is_accepted acts
  ∧ subscriptions (run acts (self, pc)).2
    = replicate (accepted acts) (topic self, 1).
Proof.
  revert self pc. induction acts as [|a acts IH]; intros self pc; simpl.
  - by rewrite orb_false_r.
  - destruct (step_config a (self, pc)) as (_ & H2 & _ & _ & _ & _ & _ & _ & H9 & H10).
    destruct (step a (self, pc)) as [[self1 pc1] tr1]. simpl in *.
    destruct (IH self1 pc1) as (I1 & I2).
    destruct (run acts (self1, pc1)) as [st2 tr2]. simpl in *.
    rewrite I1, H9, subscriptions_app, I2, H10, H2, orb_assoc.
    split; [done|]. unfold accepted. simpl. by destruct (is_accepted a).
Qed.

(** *** What can end the generator *)

(** X3.  Whatever is delivered and however the steps interleave, an
    exception that has ended the generator is a [TypeError] or a
    [NameError], raised on a payload, or the exception that the [%d]
    format or [time.sleep] raises on the poll interval: a payload that
    fails to decode never ends it. *)
Theorem generator_ends_only_by_payload_or_sleep_exception
    (self : wxMesh) (acts : list action) (e : exn) :
  (run acts (self, LoopTop)).1.2 = Raised e →
  e = TypeError ∨ e = NameError
  ∨ format_d (poll_interval self) = Raise e
  ∨ time_sleep (poll_interval self) = Raise e.
Proof.
  assert (∀ acts st,
    poll_interval st.1 = poll_interval self →
    (st.2 = QueueGet → payloadQueue st.1 ≠ []) →
    (∀ e, st.2 = Raised e →
          e = TypeError ∨ e = NameError
          ∨ format_d (poll_interval self) = Raise e
          ∨ time_sleep (poll_interval self) = Raise e) →
    ∀ e, (run acts st).1.2 = Raised e →
         e = TypeError ∨ e = NameError
         ∨ format_d (poll_interval self) = Raise e
         ∨ time_sleep (poll_interval self) = Raise e) as Hgen.
  { clear. induction acts as [|a acts IH]; intros [self0 pc] Hp Hq Hr e0; simpl.
    - apply Hr.
    - destruct (step_config a (self0, pc)) as (_ & _ & _ & _ & _ & Hp1 & _).
      destruct (step a (self0, pc)) as [st1 tr1] eqn:H1.
      destruct (run acts st1) as [st2 tr2] eqn:H2. simpl in *.
      intros Hst2. apply (IH st1); [congruence | | |by rewrite H2].
      + destruct a as [payload|rc|now]; simpl in H1.
        * destruct (on_message self0 payload) as [self1 t1] eqn:Hm.
          injection H1 as <- <-. simpl in *.
          apply on_message_queue in Hm as (-> & _).
          intros Hpc [Hnil _]%app_eq_nil. by apply Hq.
        * destruct (on_connect self0 rc) as [self1 t1] eqn:Hc.
          injection H1 as <- <-. simpl in *.
          by apply on_connect_queue in Hc as (-> & _).
        * by apply gen_step_queue in H1 as (_ & _ & _ & I).
      + destruct a as [payload|rc|now]; simpl in H1.
        * destruct (on_message self0 payload) as [self1 t1].
          injection H1 as <- <-. apply Hr.
        * destruct (on_connect self0 rc) as [self1 t1].
          injection H1 as <- <-. apply Hr.
        * destruct pc; cbn [gen_step] in H1.
          -- by injection H1 as <- <-.
          -- destruct (payloadQueue self0); [|by injection H1 as <- <-].
             destruct (sleep_poll_cases self0)
               as [(_ & _ & E)|[(e & Hf & E)|(e & _ & Ht & E)]];
               rewrite E in H1; injection H1 as <- <-; simpl; [done | |];
               intros e2 [= <-]; rewrite <- Hp; eauto.
          -- destruct (payloadQueue self0) as [|m q]; [by destruct Hq|].
             destruct (loop_body _ _ _ _) as [tr' [[p|]|e1]] eqn:Hl;
               injection H1 as <- <-; simpl; try done.
             intros e2 [= <-].
             apply loop_body_Raise in Hl as [-> | ->]; eauto.
          -- injection H1 as <- <-. apply Hr. }
  apply Hgen; done.
Qed.

(** *** Every payload taken is accounted for *)

Lemma decode_errors_app tr1 tr2 :
  decode_errors (tr1 ++ tr2) = decode_errors tr1 ++ decode_errors tr2.
Proof. unfold decode_errors. by rewrite omap_app. Qed.

Lemma get_as_float_no_decode_error d s : decode_errors (_get_as_float d s).1 = [].
Proof.
  unfold _get_as_float. destruct (dict_get s d) as [x|]; [|done].
  by destruct (py_float x) as [f|[]].
Qed.

Lemma map_fields_no_decode_error lm data vnames p :
  decode_errors (map_fields lm data vnames p).1 = [].
Proof.
  revert p. induction vnames as [|k rest IH]; intros p; simpl; [done|].
  destruct (lm !! k) as [t|]; [|apply IH].
  unfold bind. pose proof (get_as_float_no_decode_error data k) as Hg.
  destruct (_get_as_float data k) as [tr1 [v|e]]; [|done].
  specialize (IH (<[t:=v]> p)).
  destruct (map_fields lm data rest _) as [tr2 r]. simpl in *.
  by rewrite decode_errors_app, Hg, IH.
Qed.

Lemma log_items_no_decode_error data : decode_errors (log_items data).1 = [].
Proof. unfold log_items. simpl. by induction data. Qed.

(** The one decode error of a payload is logged exactly when the body ends
    in [continue]. *)
Lemma loop_body_decode_errors self n now msg :
  decode_errors (loop_body self n now msg).1
  = match (loop_body self n now msg).2 with
    | Ok None => [msg]
    | _ => []
    end.
Proof.
  destruct (json_loads msg) as [v|e] eqn:Hv.
  - destruct (dict_or_not v) as [[d ->]|Hn].
    + rewrite (loop_body_dict _ _ _ _ _ Hv). cbv zeta.
      pose proof (map_fields_no_decode_error (label_map self) (stamp now d)
        (dict_keys (stamp now d)) {[ "usUnits" := PInt METRIC ]}) as Hm.
      destruct (map_fields _ _ _ _) as [tr [p|e]]; cbn [fst snd] in *;
        change (decode_errors (Log (DbgWorking n msg) :: ?l)) with (decode_errors l);
        by rewrite decode_errors_app, log_items_no_decode_error, Hm.
    + by rewrite (loop_body_not_dict _ _ _ _ _ Hv Hn).
  - by rewrite (loop_body_decode_error _ _ _ _ _ Hv).
Qed.

Lemma sleep_poll_returns self :
  format_d (poll_interval self) = Ok () →
  time_sleep (poll_interval self) = Ok () →
  sleep_poll self
  = ([Log (DbgSleeping (poll_interval self)); Sleep (poll_interval self)], Ok ()).
Proof. intros Hf Ht. unfold sleep_poll. by rewrite Hf, Ht. Qed.

Lemma step_accounting a st :
  format_d (poll_interval st.1) = Ok () →
  time_sleep (poll_interval st.1) = Ok () →
  (st.2 = QueueGet → payloadQueue st.1 ≠ []) →
  (length (gets (step a st).2) + finished st.2
   = length (yields (step a st).2) + length (decode_errors (step a st).2)
     + finished (step a st).1.2)%nat
  ∧ ((step a st).1.2 = QueueGet → payloadQueue (step a st).1.1 ≠ []).
Proof.
  destruct st as [self pc]. intros Hf Ht Hq.
  destruct a as [payload|rc|now]; simpl.
  - unfold on_message. destruct (decode_utf8 payload) as [s|e]; simpl.
    + split; [lia|]. intros Hpc [Hnil _]%app_eq_nil. by apply Hq.
    + split; [lia | done].
  - unfold on_connect. destruct (decide (rc = 0)); simpl; split; (lia || done).
  - simpl in Hq, Hf, Ht. destruct pc; cbn [gen_step].
    + simpl. split; [lia | done].
    + destruct (payloadQueue self) as [|m q] eqn:E.
      * rewrite (sleep_poll_returns self Hf Ht). simpl. split; [lia | done].
      * simpl. rewrite E. split; [lia | done].
    + destruct (payloadQueue self) as [|m q] eqn:E; [by destruct Hq|].
      pose proof (loop_body_logs (set_payloadQueue self q) (length q) now m) as Hl.
      pose proof (loop_body_decode_errors (set_payloadQueue self q) (length q) now m) as Hd.
      destruct (loop_body _ _ _ _) as [tr' [[p|]|e]]; simpl in *;
        destruct (logs_readings tr' [] Hl) as (_ & Hg & Hy & _).
      * change (gets (Get m :: ?l)) with (m :: gets l).
        change (yields (Get m :: ?l)) with (yields l).
        change (decode_errors (Get m :: ?l)) with (decode_errors l).
        destruct (readings_app tr' [Yield p]) as (_ & -> & -> & _).
        rewrite decode_errors_app, Hg, Hy, Hd. simpl. split; [lia | done].
      * change (gets (Get m :: ?l)) with (m :: gets l).
        change (yields (Get m :: ?l)) with (yields l).
        change (decode_errors (Get m :: ?l)) with (decode_errors l).
        rewrite Hg, Hy, Hd. simpl. split; [lia | done].
      * change (gets (Get m :: ?l)) with (m :: gets l).
        change (yields (Get m :: ?l)) with (yields l).
        change (decode_errors (Get m :: ?l)) with (decode_errors l).
        destruct (readings_app tr' [Uncaught e]) as (_ & -> & -> & _).
        rewrite decode_errors_app, Hg, Hy, Hd. simpl. split; [lia | done].
    + simpl. split; [lia | done].
Qed.

Lemma run_accounting acts : ∀ st,
  format_d (poll_interval st.1) = Ok () →
  time_sleep (poll_interval st.1) = Ok () →
  (st.2 = QueueGet → payloadQueue st.1 ≠ []) →
  (length (gets (run acts st).2) + finished st.2
   = length (yields (run acts st).2) + length (decode_errors (run acts st).2)
     + finished (run acts st).1.2)%nat.
Proof.
  induction acts as [|a acts IH]; intros st Hf Ht Hq; simpl; [lia|].
  destruct (step_accounting a st Hf Ht Hq) as (E1 & I1).
  destruct (step_config a st) as (_ & _ & _ & _ & _ & Hp & _).
  destruct (step a st) as [st1 tr1]. simpl in *.
  rewrite <- Hp in Hf, Ht.
  specialize (IH st1 Hf Ht I1). destruct (run acts st1) as [st2 tr2]. simpl in *.
  destruct (readings_app tr1 tr2) as (_ & -> & -> & _).
  rewrite decode_errors_app, !length_app. lia.
Qed.

(** X4.  With a poll interval that the [%d] format and [time.sleep]
    accept, in every run from the top of the loop each payload taken from
    the queue has exactly one outcome: a yielded record, a logged decode
    error, or the one exception that ended the generator. *)
Theorem every_taken_payload_has_one_outcome (self : wxMesh) (acts : list action) :
  format_d (poll_interval self) = Ok () →
  time_sleep (poll_interval self) = Ok () →
  length (gets (run acts (self, LoopTop)).2)
  = (length (yields (run acts (self, LoopTop)).2)
     + length (decode_errors (run acts (self, LoopTop)).2)
     + finished (run acts (self, LoopTop)).1.2)%nat.
Proof.
  intros Hf Ht.
  pose proof (run_accounting acts (self, LoopTop) Hf Ht) as H. simpl in H.
  rewrite <- H by done. lia.
Qed.

(** *** What a record can hold *)

(** X5.  A key of a produced record is [usUnits] or the target the label
    map gives to some key of the message, and its value is the unit tag, a
    float or [None]: a source name that the label map does not produce and
    a raw payload value never reach the record. *)
Theorem record_holds_only_mapped_targets_and_floats
    (self : wxMesh) (n : nat) (now : Z) (msg : string)
    (d : list (string * pyval)) (tr : list event) (p : gmap string pyval)
    (k : string) (v : pyval) :
  json_loads msg = Ok (PDict d) →
  loop_body self n now msg = (tr, Ok (Some p)) →
  p !! k = Some v →
  (k = "usUnits"
   ∨ ∃ src, src ∈ dict_keys (stamp now d) ∧ label_map self !! src = Some k)
  ∧ (v = PInt METRIC ∨ v = PNone ∨ ∃ f, v = PFloat f).
Proof.
  intros Hd (d' & Hd' & ->)%loop_body_Some Hk.
  rewrite Hd in Hd'. injection Hd' as <-. split.
  - assert (k ∈ dom (fold_packet (label_map self) (stamp now d)
                       (dict_keys (stamp now d)) {[ "usUnits" := PInt METRIC ]}))
      as Hdom by (apply elem_of_dom; eauto).
    rewrite fold_packet_dom, dom_singleton_L in Hdom.
    apply elem_of_union in Hdom as [->%elem_of_singleton|Ht]; [by left|].
    right. apply elem_of_list_to_set in Ht. unfold targets in Ht.
    apply list_elem_of_omap in Ht as (src & Hin & Hs). eauto.
  - apply fold_packet_shape in Hk as [Hk|Hk]; [|naive_solver].
    apply lookup_singleton_Some in Hk as [_ <-]. by left.
Qed.

(** *** Keys that share a target *)

Lemma fold_packet_app lm data l1 l2 p :
  fold_packet lm data (l1 ++ l2) p = fold_packet lm data l2 (fold_packet lm data l1 p).
Proof.
  revert p. induction l1 as [|k l1 IH]; intros p; simpl; [done|].
  destruct (lm !! k); apply IH.
Qed.

(** X6.  When several keys of a message are mapped to one target, the
    last of them in the order of the message decides the value: the
    target holds the float of that key's value, or [None] when the value
    does not convert. *)
Theorem last_key_of_a_shared_target_wins
    (self : wxMesh) (n : nat) (now : Z) (msg : string)
    (d : list (string * pyval)) (l1 l2 : list string) (k t : string) (x : pyval) :
  json_loads msg = Ok (PDict d) →
  forallb contained (mapped_values (label_map self) (stamp now d)) = true →
  dict_keys (stamp now d) = l1 ++ k :: l2 →
  label_map self !! k = Some t →
  t ∉ targets (label_map self) l2 →
  dict_get k (stamp now d) = Some x →
  ∃ tr p,
    loop_body self n now msg = (tr, Ok (Some p))
    ∧ p !! t = Some (match py_float x with Ok f => PFloat f | Raise _ => PNone end).
Proof.
  intros Hd Hc Hkeys Hk Ht Hx.
  destruct (loop_body_produces self n now msg d Hd Hc) as (tr & E & _).
  eexists _, _. split; [exact E|].
  rewrite Hkeys, fold_packet_app. simpl. rewrite Hk.
  rewrite fold_packet_untouched by done. rewrite lookup_insert_eq.
  unfold field_value. by rewrite Hx.
Qed.

(** *** Fields outside the label map *)

Lemma map_fields_same_mapped lm data1 data2 : ∀ ks1 ks2 p,
  omap (λ k, match lm !! k with
             | Some _ => Some (k, dict_get k data1) | None => None end) ks1
  = omap (λ k, match lm !! k with
               | Some _ => Some (k, dict_get k data2) | None => None end) ks2 →
  map_fields lm data1 ks1 p = map_fields lm data2 ks2 p.
Proof.
  induction ks1 as [|k1 ks1 IH1].
  - induction ks2 as [|k2 ks2 IH2]; intros p; simpl; [done|].
    destruct (lm !! k2); [done | apply IH2].
  - intros ks2 p. simpl. destruct (lm !! k1) as [t1|] eqn:H1; [|apply IH1].
    induction ks2 as [|k2 ks2 IH2]; simpl; [done|].
    destruct (lm !! k2) as [t2|] eqn:H2; [|apply IH2].
    intros [= <- Hv Hrest]. rewrite H1 in H2. injection H2 as <-.
    unfold _get_as_float. rewrite Hv. unfold bind.
    destruct (dict_get k1 data2) as [x|].
    + destruct (py_float x) as [f|[]]; simpl; try done; by rewrite (IH1 ks2).
    + simpl. by rewrite (IH1 ks2).
Qed.

(** X7.  The outcome of the mapping, a record or an exception, depends
    only on the mapped fields of the stamped message, in their order: two
    payloads that agree on them give the same outcome, whatever other
    fields they carry, at whatever queue size. *)
Theorem record_depends_only_on_mapped_fields
    (self : wxMesh) (n1 n2 : nat) (now1 now2 : Z) (msg1 msg2 : string)
    (d1 d2 : list (string * pyval)) :
  json_loads msg1 = Ok (PDict d1) →
  json_loads msg2 = Ok (PDict d2) →
  mapped_fields (label_map self) (stamp now1 d1)
  = mapped_fields (label_map self) (stamp now2 d2) →
  (loop_body self n1 now1 msg1).2 = (loop_body self n2 now2 msg2).2.
Proof.
  intros H1 H2 Hm.
  rewrite (loop_body_dict _ _ _ _ _ H1), (loop_body_dict _ _ _ _ _ H2). cbv zeta.
  rewrite (map_fields_same_mapped (label_map self) (stamp now1 d1) (stamp now2 d2)
             (dict_keys (stamp now1 d1)) (dict_keys (stamp now2 d2))) by exact Hm.
  by destruct (map_fields _ _ _ _) as [tr r].
Qed.


(** *** The idle driver *)

Lemma idle_run nows : ∀ self pc,
  format_d (poll_interval self) = Ok () →
  time_sleep (poll_interval self) = Ok () →
  payloadQueue self = [] →
  pc = LoopTop ∨ pc = WhileTest →
  (run (Resume <$> nows) (self, pc)).1.1 = self
  ∧ ((run (Resume <$> nows) (self, pc)).1.2 = LoopTop
     ∨ (run (Resume <$> nows) (self, pc)).1.2 = WhileTest)
  ∧ yields (run (Resume <$> nows) (self, pc)).2 = []
  ∧ gets (run (Resume <$> nows) (self, pc)).2 = []
  ∧ sleeps (run (Resume <$> nows) (self, pc)).2
    = replicate
        (Nat.div2 (length nows + match pc with WhileTest => 1 | _ => 0 end))
        (poll_interval self).
Proof.
  induction nows as [|n nows IH]; intros self pc Hf Ht Hq Hpc.
  - simpl. destruct Hpc as [-> | ->]; by split_and!; eauto.
  - change (Resume <$> n :: nows) with (Resume n :: (Resume <$> nows)).
    cbn [run step]. destruct Hpc as [-> | ->].
    + cbn [gen_step].
      destruct (IH self WhileTest Hf Ht Hq) as (I1 & I2 & I3 & I4 & I5); [by right|].
      destruct (run (Resume <$> nows) (self, WhileTest)) as [st2 tr2].
      cbn [fst snd] in *. split_and!; try done.
      rewrite sleeps_app, I5. cbn [length].
      change (sleeps [Log ?r; Log ?r']) with (@nil float).
      cbn [app]. f_equal. f_equal. lia.
    + cbn [gen_step]. rewrite Hq, (sleep_poll_returns self Hf Ht).
      destruct (IH self LoopTop Hf Ht Hq) as (I1 & I2 & I3 & I4 & I5); [by left|].
      destruct (run (Resume <$> nows) (self, LoopTop)) as [st2 tr2].
      cbn [fst snd] in *. split_and!; try done.
      rewrite sleeps_app, I5. cbn [length].
      change (sleeps [Log ?r; Sleep ?s]) with [s].
      replace (S (length nows) + 1)%nat with (S (S (length nows + 0))) by lia.
      done.
Qed.

(** X13.  With a poll interval that the [%d] format and [time.sleep]
    accept, an empty queue and no delivery, the generator cycles for as
    long as it is resumed: it never ends, takes and yields nothing, leaves
    the driver as it was, and sleeps once per cycle of two steps, each
    time for the poll interval. *)
Theorem idle_generator_cycles_forever (self : wxMesh) (nows : list Z) :
  format_d (poll_interval self) = Ok () →
  time_sleep (poll_interval self) = Ok () →
  payloadQueue self = [] →
  (run (Resume <$> nows) (self, LoopTop)).1
  = (self, if Nat.even (length nows) then LoopTop else WhileTest)
  ∧ yields (run (Resume <$> nows) (self, LoopTop)).2 = []
  ∧ gets (run (Resume <$> nows) (self, LoopTop)).2 = []
  ∧ sleeps (run (Resume <$> nows) (self, LoopTop)).2
    = replicate (Nat.div2 (length nows)) (poll_interval self).
Proof.
  intros Hf Ht Hq.
  destruct (idle_run nows self LoopTop Hf Ht Hq) as (I1 & I2 & I3 & I4 & I5);
    [by left|].
  rewrite Nat.add_0_r in I5. split_and!; try done.
  clear I3 I4 I5. revert I1 I2.
  assert (∀ pc, (pc = LoopTop ∨ pc = WhileTest) →
    (run (Resume <$> nows) (self, pc)).1.2
    = if Nat.even (length nows + match pc with WhileTest => 1 | _ => 0 end)
      then LoopTop else WhileTest) as Hpar.
  { clear -Hq Hf Ht. induction nows as [|n nows IH]; intros pc Hpc.
    - by destruct Hpc as [-> | ->].
    - change (Resume <$> n :: nows) with (Resume n :: (Resume <$> nows)).
      cbn [run step]. destruct Hpc as [-> | ->]; cbn [gen_step];
        rewrite ?Hq, ?(sleep_poll_returns self Hf Ht).
      + specialize (IH WhileTest (or_intror eq_refl)).
        destruct (run (Resume <$> nows) (self, WhileTest)) as [st2 tr2].
        simpl in *. rewrite IH.
        by replace (length nows + 1)%nat with (S (length nows + 0)) by lia.
      + specialize (IH LoopTop (or_introl eq_refl)).
        destruct (run (Resume <$> nows) (self, LoopTop)) as [st2 tr2].
        simpl in *. rewrite IH.
        replace (length nows + 1)%nat with (S (length nows + 0)) by lia.
        by rewrite Nat.add_0_r. }
  specialize (Hpar LoopTop (or_introl eq_refl)). rewrite Nat.add_0_r in Hpar.
  destruct (run (Resume <$> nows) (self, LoopTop)) as [[s2 pc2] tr2]. simpl in *.
  intros -> _. by rewrite Hpar.
Qed.

(** X15.  A poll interval that the [%d] format or [time.sleep] rejects
    ends the generator at its first idle cycle: with an empty queue, the
    two steps of the cycle leave the generator finished by that exception,
    without a sleep and without a record. *)
Theorem rejected_poll_interval_ends_idle_generator
    (self : wxMesh) (now1 now2 : Z) (e : exn) :
  payloadQueue self = [] →
  format_d (poll_interval self) = Raise e
  ∨ (format_d (poll_interval self) = Ok ()
     ∧ time_sleep (poll_interval self) = Raise e) →
  (run [Resume now1; Resume now2] (self, LoopTop)).1 = (self, Raised e)
  ∧ Uncaught e ∈ (run [Resume now1; Resume now2] (self, LoopTop)).2
  ∧ sleeps (run [Resume now1; Resume now2] (self, LoopTop)).2 = []
  ∧ yields (run [Resume now1; Resume now2] (self, LoopTop)).2 = [].
Proof.
  intros Hq Hrej. rewrite (idle_cycle _ _ _ Hq).
  destruct (sleep_poll_cases self)
    as [(Hf & Ht & E)|[(e' & Hf & E)|(e' & Hf & Ht & E)]]; rewrite E.
  - destruct Hrej as [?|[_ ?]]; congruence.
  - destruct Hrej as [?|[? _]]; [|congruence].
    assert (e' = e) as -> by congruence. split_and!; [done | set_solver | done..].
  - destruct Hrej as [?|[_ ?]]; [congruence|].
    assert (e' = e) as -> by congruence. split_and!; [done | set_solver | done..].
Qed.

(** *** Construction *)

(** X10.  A construction that succeeds keeps each supplied option and
    takes the default for each absent one ([no default] for the user name
    and the password), converts the poll interval with [float], starts
    with an empty queue and [connected] false, sets the credentials,
    connects to port 1883 with keep-alive 60, sleeps 4 seconds once and
    ends by starting the client's loop. *)
Theorem constructor_keeps_supplied_options
    (stn : stn_dict) (conn : result unit) (tr : list event) (self : wxMesh) :
  __init__ stn conn = (tr, Ok self) →
  host self = default "localhost" (opt_host stn)
  ∧ topic self = default "weather" (opt_topic stn)
  ∧ username self = default "no default" (opt_username stn)
  ∧ password self = default "no default" (opt_password stn)
  ∧ client_id self = default "wxclient" (opt_client stn)
  ∧ py_float (default (PFloat 5) (opt_poll_interval stn)) = Ok (poll_interval self)
  ∧ label_map self = default ∅ (opt_label_map stn)
  ∧ payloadQueue self = [] ∧ connected self = false
  ∧ UsernamePwSet (username self) (password self) ∈ tr
  ∧ Connect (host self) 1883 60 ∈ tr
  ∧ sleeps tr = [4%float]
  ∧ last tr = Some LoopStart.
Proof.
  unfold __init__.
  destruct (py_float (default (PFloat 5) (opt_poll_interval stn))) as [p|e];
    simpl; [|done].
  destruct conn as [[]|e]; simpl; [|done].
  intros [= <- <-]. simpl. split_and!; try done; set_solver.
Qed.

(** X11.  A supplied poll interval that [float] rejects makes the
    constructor raise that exception before anything is logged or
    connected.  A failing [connect] makes it raise after the connection
    attempt, without the sleep and without starting the client's loop. *)
Theorem constructor_failures (stn : stn_dict) (conn : result unit) :
  (∀ x e, opt_poll_interval stn = Some x → py_float x = Raise e →
          __init__ stn conn = ([], Raise e))
  ∧ (∀ p e, py_float (default (PFloat 5) (opt_poll_interval stn)) = Ok p →
            conn = Raise e →
            (__init__ stn conn).2 = Raise e
            ∧ last (__init__ stn conn).1
              = Some (Connect (default "localhost" (opt_host stn)) 1883 60)
            ∧ sleeps (__init__ stn conn).1 = []).
Proof.
  split.
  - intros x e Hx Hf. unfold __init__. rewrite Hx. simpl. by rewrite Hf.
  - intros p e Hp ->. unfold __init__. rewrite Hp. by simpl.
Qed.

(** *** After the generator has ended *)

(** X14.  Once an exception has ended the generator it stays ended:
    deliveries still append to the queue, and nothing is taken, yielded or
    slept from then on. *)
Theorem ended_generator_leaves_deliveries_queued
    (self : wxMesh) (e : exn) (acts : list action) :
  (run acts (self, Raised e)).1.2 = Raised e
  ∧ payloadQueue (run acts (self, Raised e)).1.1
    = payloadQueue self ++ puts (run acts (self, Raised e)).2
  ∧ gets (run acts (self, Raised e)).2 = []
  ∧ yields (run acts (self, Raised e)).2 = []
  ∧ sleeps (run acts (self, Raised e)).2 = [].
Proof.
  destruct (run acts (self, Raised e)) as [st tr] eqn:Hr.
  pose proof (run_queue acts _ _ _ Hr) as (E & _); [done|].
  pose proof (run_raised acts _ _ _ _ Hr) as (P & Y & G).
  simpl in *. rewrite G in E. split_and!; try done.
  clear E P Y G. revert self st tr Hr.
  induction acts as [|a acts IH]; intros self st tr; simpl.
  - by intros [= <- <-].
  - destruct (step a (self, Raised e)) as [st1 tr1] eqn:H1.
    destruct (run acts st1) as [st2 tr2] eqn:H2. intros [= <- <-].
    assert (st1.2 = Raised e ∧ sleeps tr1 = []) as (P1 & S1).
    { destruct a as [payload|rc|now]; simpl in H1.
      - unfold on_message in H1. destruct (decode_utf8 payload);
          by injection H1 as <- <-.
      - unfold on_connect in H1. destruct (decide (rc = 0));
          by injection H1 as <- <-.
      - by injection H1 as <- <-. }
    destruct st1 as [self1 pc1]. simpl in P1. subst pc1.
    by rewrite sleeps_app, S1, (IH _ _ _ H2).
Qed.

End Properties.

(** ** The driver on concrete payloads *)

Import Examples.

(** The reference decoder on the payloads used below. *)
Example loads_fields :
  json_loads (text "{'temp':'21.5','humi':'55','extra':'x'}")
  = Ok (PDict [("temp", PStr "21.5"); ("humi", PStr "55"); ("extra", PStr "x")]).
Proof. vm_compute. reflexivity. Qed.

Example loads_truncated : json_loads (text "{'temp':") = Raise JSONDecodeError.
Proof. vm_compute. reflexivity. Qed.

Example float_of_fields :
  py_float (PStr "21.5") = Ok 21.5%float
  ∧ py_float (PStr "55") = Ok 55%float
  ∧ py_float (PStr "not-a-number") = Raise ValueError
  ∧ py_float PNone = Raise TypeError
  ∧ py_float (PInt (10 ^ 400)) = Raise OverflowError.
Proof. vm_compute. by split_and!. Qed.

(** C1, the claim as stated fails: with the label map [temp -> outTemp],
    the payload [{"temp":"not-a-number"}] gives a record, the conversion
    error is logged, and the record has the key [outTemp], holding
    [None]. *)
Lemma unparseable_field_is_present :
  ∃ tr p,
    loop_body (driver labels) 0 now (text "{'temp':'not-a-number'}")
    = (tr, Ok (Some p))
    ∧ Log (ErrCannotRead "temp" (PStr "not-a-number")) ∈ tr
    ∧ p = {[ "usUnits" := PInt METRIC; "outTemp" := PNone ]}
    ∧ p !! "outTemp" = Some PNone.
Proof.
  eexists _, _. split_and!.
  - vm_compute. reflexivity.
  - set_solver.
  - vm_compute. reflexivity.
  - vm_compute. reflexivity.
Qed.

(** The amended C1 on that payload. *)
Lemma unparseable_field_maps_to_None_witness :
  ∃ tr p,
    loop_body (driver labels) 0 now (text "{'temp':'not-a-number'}")
    = (tr, Ok (Some p))
    ∧ Log (ErrCannotRead "temp" (PStr "not-a-number")) ∈ tr
    ∧ is_Some (p !! "outTemp")
    ∧ ((∀ k', k' ∈ dict_keys (dict_set "TIME" (PInt now)
                               [("temp", PStr "not-a-number")]) →
              label_map (driver labels) !! k' = Some "outTemp" → k' = "temp") →
       p !! "outTemp" = Some PNone).
Proof.
  apply (unparseable_field_maps_to_None (driver labels) 0 now
           (text "{'temp':'not-a-number'}") [("temp", PStr "not-a-number")]
           "temp" "outTemp" (PStr "not-a-number"));
    vm_compute; reflexivity.
Defined.

(** C7, the claim as stated fails: with the label map [temp -> usUnits],
    the payload [{"temp":"21.5"}] gives a record whose [usUnits] is the
    temperature. *)
Lemma unit_tag_overwritten :
  (loop_body (driver {[ "temp" := "usUnits" ]}) 0 now
     (text "{'temp':'21.5'}")).2
  = Ok (Some {[ "usUnits" := PFloat 21.5 ]})
  ∧ ({[ "usUnits" := PFloat 21.5 ]} : gmap string pyval) !! "usUnits"
    ≠ Some (PInt METRIC).
Proof. split; [vm_compute; reflexivity | by rewrite lookup_singleton_eq]. Qed.

(** The amended C7 on the label map of the documentation. *)
Lemma unit_tag_present_in_every_record_witness :
  (∀ tr p, loop_body (driver labels) 0 now (text "{'temp':'not-a-number'}")
           = (tr, Ok (Some p)) →
     is_Some (p !! "usUnits")
     ∧ ("usUnits" ∉ targets (label_map (driver labels))
           (dict_keys (dict_set "TIME" (PInt now)
                         [("temp", PStr "not-a-number")])) →
        p !! "usUnits" = Some (PInt METRIC)))
  ∧ (Forall (λ x, py_float x = Raise ValueError)
       (mapped_values (label_map (driver labels))
          (dict_set "TIME" (PInt now) [("temp", PStr "not-a-number")])) →
     "usUnits" ∉ targets (label_map (driver labels))
        (dict_keys (dict_set "TIME" (PInt now)
                      [("temp", PStr "not-a-number")])) →
     ∃ tr p, loop_body (driver labels) 0 now (text "{'temp':'not-a-number'}")
             = (tr, Ok (Some p))
             ∧ p !! "usUnits" = Some (PInt METRIC))
  ∧ (targets (label_map (driver labels))
       (dict_keys (dict_set "TIME" (PInt now)
                     [("temp", PStr "not-a-number")])) = [] →
     ∃ tr, loop_body (driver labels) 0 now (text "{'temp':'not-a-number'}")
           = (tr, Ok (Some {[ "usUnits" := PInt METRIC ]}))).
Proof.
  apply (unit_tag_present_in_every_record (driver labels) 0 now
           (text "{'temp':'not-a-number'}") [("temp", PStr "not-a-number")]).
  vm_compute. reflexivity.
Defined.

(** C2, the claim as stated fails: with the label map of the
    documentation, which has no entry for [TIME], the record of the
    payload [{"temp":"21.5"}] has two fields and none holds the time. *)
Lemma record_without_timestamp :
  (loop_body (driver labels) 0 now (text "{'temp':'21.5'}")).2
  = Ok (Some {[ "usUnits" := PInt METRIC; "outTemp" := PFloat 21.5 ]})
  ∧ size ({[ "usUnits" := PInt METRIC; "outTemp" := PFloat 21.5 ]}
          : gmap string pyval) = 2%nat
  ∧ float_of_int now = Ok 1700000000%float.
Proof. split_and!; vm_compute; reflexivity. Qed.

(** The amended C2 on a label map with an entry for [TIME] and a payload
    that carries a [TIME] of its own. *)
Lemma timestamp_follows_label_map_witness :
  (∀ t f,
     label_map (driver {[ "temp" := "outTemp"; "TIME" := "dateTime" ]})
       !! "TIME" = Some t →
     float_of_int now = Ok f →
     forallb contained
       (mapped_values
          (label_map (driver {[ "temp" := "outTemp"; "TIME" := "dateTime" ]}))
          (dict_set "TIME" (PInt now)
             [("temp", PStr "21.5"); ("TIME", PStr "12")])) = true →
     (∀ k', k' ∈ dict_keys [("temp", PStr "21.5"); ("TIME", PStr "12")] →
            label_map (driver {[ "temp" := "outTemp"; "TIME" := "dateTime" ]})
              !! k' = Some t → k' = "TIME") →
     ∃ tr p,
       loop_body (driver {[ "temp" := "outTemp"; "TIME" := "dateTime" ]}) 0 now
         (text "{'temp':'21.5','TIME':'12'}") = (tr, Ok (Some p))
       ∧ p !! t = Some (PFloat f))
  ∧ (label_map (driver {[ "temp" := "outTemp"; "TIME" := "dateTime" ]})
       !! "TIME" = None →
     ∀ now' msg' x,
       json_loads msg'
       = Ok (PDict (dict_set "TIME" x
                      [("temp", PStr "21.5"); ("TIME", PStr "12")])) →
       (loop_body (driver {[ "temp" := "outTemp"; "TIME" := "dateTime" ]})
          0 now' msg').2
       = (loop_body (driver {[ "temp" := "outTemp"; "TIME" := "dateTime" ]})
            0 now (text "{'temp':'21.5','TIME':'12'}")).2).
Proof.
  apply (timestamp_follows_label_map
           (driver {[ "temp" := "outTemp"; "TIME" := "dateTime" ]}) 0 now
           (text "{'temp':'21.5','TIME':'12'}")
           [("temp", PStr "21.5"); ("TIME", PStr "12")]).
  vm_compute. reflexivity.
Defined.

(** With an entry for [TIME], the record holds the local time and not the
    [TIME] of the payload. *)
Example payload_time_is_replaced :
  (loop_body (driver {[ "temp" := "outTemp"; "TIME" := "dateTime" ]}) 0 now
     (text "{'temp':'21.5','TIME':'12'}")).2
  = Ok (Some {[ "usUnits" := PInt METRIC; "outTemp" := PFloat 21.5;
                "dateTime" := PFloat 1700000000 ]}).
Proof. vm_compute. reflexivity. Qed.

(** C4, the claim as stated fails: with the label map
    [temp -> outTemp, humi -> outHumidity], the queued payload of the
    claim yields one record in the cycle, and its fields are the unit tag
    and the two renamed values: three fields, none of them a time. *)
Lemma one_record_without_time :
  yields (run [Message (payload "{'temp':'21.5','humi':'55','extra':'x'}");
               Resume now; Resume now; Resume now; Resume now; Resume now]
            (driver labels, LoopTop)).2
  = [ {[ "usUnits" := PInt METRIC; "outTemp" := PFloat 21.5;
         "outHumidity" := PFloat 55 ]} ]
  ∧ size ({[ "usUnits" := PInt METRIC; "outTemp" := PFloat 21.5;
             "outHumidity" := PFloat 55 ]} : gmap string pyval) = 3%nat
  ∧ ({[ "usUnits" := PInt METRIC; "outTemp" := PFloat 21.5;
        "outHumidity" := PFloat 55 ]} : gmap string pyval) !! "time" = None.
Proof. split_and!; vm_compute; reflexivity. Qed.

(** The amended C4 on the same payload, queued alone. *)
Lemma convertible_fields_yield_one_record_witness :
  ∃ tr p,
    gen_step now
      (set_payloadQueue (driver labels)
         [text "{'temp':'21.5','humi':'55','extra':'x'}"], QueueGet)
    = ((set_payloadQueue
          (set_payloadQueue (driver labels)
             [text "{'temp':'21.5','humi':'55','extra':'x'}"]) [],
        WhileTest), tr)
    ∧ yields tr = [p]
    ∧ dom p = {[ "usUnits" ]}
              ∪ list_to_set
                  (targets (label_map (set_payloadQueue (driver labels)
                     [text "{'temp':'21.5','humi':'55','extra':'x'}"]))
                     (dict_keys (dict_set "TIME" (PInt now)
                        [("temp", PStr "21.5"); ("humi", PStr "55");
                         ("extra", PStr "x")])))
    ∧ ∀ k t x f,
        dict_get k (dict_set "TIME" (PInt now)
                      [("temp", PStr "21.5"); ("humi", PStr "55");
                       ("extra", PStr "x")]) = Some x →
        label_map (set_payloadQueue (driver labels)
          [text "{'temp':'21.5','humi':'55','extra':'x'}"]) !! k = Some t →
        py_float x = Ok f →
        (∀ k', k' ∈ dict_keys (dict_set "TIME" (PInt now)
                       [("temp", PStr "21.5"); ("humi", PStr "55");
                        ("extra", PStr "x")]) →
               label_map (set_payloadQueue (driver labels)
                 [text "{'temp':'21.5','humi':'55','extra':'x'}"]) !! k'
               = Some t → k' = k) →
        p !! t = Some (PFloat f).
Proof.
  apply (convertible_fields_yield_one_record
           (set_payloadQueue (driver labels)
              [text "{'temp':'21.5','humi':'55','extra':'x'}"])
           now (text "{'temp':'21.5','humi':'55','extra':'x'}") []
           [("temp", PStr "21.5"); ("humi", PStr "55"); ("extra", PStr "x")]);
    vm_compute; reflexivity.
Defined.

(** C5 on a truncated payload with a valid one queued behind it. *)
Lemma invalid_json_is_logged_and_skipped_witness :
  gen_step now
    (set_payloadQueue (driver labels)
       [text "{'temp':"; text "{'temp':'21.5'}"], QueueGet)
  = ((set_payloadQueue
        (set_payloadQueue (driver labels)
           [text "{'temp':"; text "{'temp':'21.5'}"])
        [text "{'temp':'21.5'}"], WhileTest),
     [Get (text "{'temp':");
      Log (DbgWorking (length [text "{'temp':'21.5'}"]) (text "{'temp':"));
      Log (ErrLoadingJSON (text "{'temp':") JSONDecodeError)])
  ∧ yields (gen_step now
              (set_payloadQueue (driver labels)
                 [text "{'temp':"; text "{'temp':'21.5'}"], QueueGet)).2 = []
  ∧ ∀ msg' q' now1 now2, [text "{'temp':'21.5'}"] = msg' :: q' →
      gets (run [Resume now1; Resume now2]
              (set_payloadQueue
                 (set_payloadQueue (driver labels)
                    [text "{'temp':"; text "{'temp':'21.5'}"])
                 [text "{'temp':'21.5'}"], WhileTest)).2 = [msg'].
Proof.
  apply (invalid_json_is_logged_and_skipped
           (set_payloadQueue (driver labels)
              [text "{'temp':"; text "{'temp':'21.5'}"])
           now (text "{'temp':") [text "{'temp':'21.5'}"] JSONDecodeError);
    vm_compute; reflexivity.
Defined.

(** After the truncated payload, the next one is mapped and yielded. *)
Example truncated_then_valid :
  yields (run [Message (payload "{'temp':"); Message (payload "{'temp':'21.5'}");
               Resume now; Resume now; Resume now; Resume now; Resume now]
            (driver labels, LoopTop)).2
  = [ {[ "usUnits" := PInt METRIC; "outTemp" := PFloat 21.5 ]} ].
Proof. vm_compute. reflexivity. Qed.

(** C9 on the array [[1]] with a valid payload queued behind it. *)
Lemma non_object_payload_ends_generator_witness :
  gen_step now
    (set_payloadQueue (driver labels) [text "[1]"; text "{'temp':'21.5'}"],
     QueueGet)
  = ((set_payloadQueue
        (set_payloadQueue (driver labels) [text "[1]"; text "{'temp':'21.5'}"])
        [text "{'temp':'21.5'}"], Raised TypeError),
     [Get (text "[1]");
      Log (DbgWorking (length [text "{'temp':'21.5'}"]) (text "[1]"));
      Uncaught TypeError])
  ∧ ∀ acts,
      (run acts
         (set_payloadQueue
            (set_payloadQueue (driver labels)
               [text "[1]"; text "{'temp':'21.5'}"])
            [text "{'temp':'21.5'}"], Raised TypeError)).1.2
      = Raised TypeError
      ∧ yields (run acts
                  (set_payloadQueue
                     (set_payloadQueue (driver labels)
                        [text "[1]"; text "{'temp':'21.5'}"])
                     [text "{'temp':'21.5'}"], Raised TypeError)).2 = []
      ∧ gets (run acts
                (set_payloadQueue
                   (set_payloadQueue (driver labels)
                      [text "[1]"; text "{'temp':'21.5'}"])
                   [text "{'temp':'21.5'}"], Raised TypeError)).2 = [].
Proof.
  apply (non_object_payload_ends_generator
           (set_payloadQueue (driver labels)
              [text "[1]"; text "{'temp':'21.5'}"])
           now (text "[1]") [text "{'temp':'21.5'}"] (PList [PInt 1]));
    [vm_compute; reflexivity | vm_compute; reflexivity | discriminate].
Defined.

(** A number and a string at the top of the payload end the generator in
    the same way. *)
Example number_and_string_payloads :
  (run [Message (payload "12"); Resume now; Resume now; Resume now]
     (driver labels, LoopTop)).1.2 = Raised TypeError
  ∧ (run [Message (payload "'abc'"); Resume now; Resume now; Resume now]
       (driver labels, LoopTop)).1.2 = Raised TypeError.
Proof. split; vm_compute; reflexivity. Qed.

(** C8, the claim as stated fails: the constructor accepts the poll
    interval [-1], and with it the idle cycle does not sleep: [time.sleep]
    raises [ValueError], which ends the generator. *)
Lemma negative_poll_interval_ends_generator :
  (__init__ (options_polling "-1") (Ok ())).2 = Ok (driver_polling (-1))
  ∧ run [Resume now; Resume (now + 1)] (driver_polling (-1), LoopTop)
    = ((driver_polling (-1), Raised ValueError),
       [Log (DbgQueueSize 0); Log DbgWaiting; Log (DbgSleeping (-1));
        Uncaught ValueError])
  ∧ sleeps (run [Resume now; Resume (now + 1)] (driver_polling (-1), LoopTop)).2
    = [].
Proof. split_and!; vm_compute; reflexivity. Qed.

(** The amended C8 on the driver constructed with defaults: the sleep is
    5.0 s. *)
Lemma empty_queue_cycle_sleeps_witness :
  (gets (run [Resume now; Resume (now + 1)] (driver labels, LoopTop)).2 = []
   ∧ blocks (run [Resume now; Resume (now + 1)] (driver labels, LoopTop)).2 = []
   ∧ yields (run [Resume now; Resume (now + 1)] (driver labels, LoopTop)).2 = [])
  ∧ run [Resume now; Resume (now + 1)] (driver labels, LoopTop)
    = ((driver labels, LoopTop),
       [Log (DbgQueueSize 0); Log DbgWaiting;
        Log (DbgSleeping 5); Sleep 5]).
Proof.
  destruct (empty_queue_cycle_sleeps (driver labels) now (now + 1) eq_refl)
    as [H1 H2].
  split; [exact H1|]. apply H2; vm_compute; reflexivity.
Defined.

(** A poll interval that is not a number, or infinite, ends the idle
    generator at the debug line, before anything is logged; one too large
    for [time.sleep] ends it at the sleep. *)
Example unusable_poll_intervals :
  (run [Resume now; Resume now] (driver_polling nan, LoopTop)).1.2
  = Raised ValueError
  ∧ (run [Resume now; Resume now] (driver_polling nan, LoopTop)).2
    = [Log (DbgQueueSize 0); Log DbgWaiting; Uncaught ValueError]
  ∧ (run [Resume now; Resume now] (driver_polling infinity, LoopTop)).1.2
    = Raised OverflowError
  ∧ (run [Resume now; Resume now] (driver_polling 18446744073709551616, LoopTop)).1.2
    = Raised OverflowError.
Proof. split_and!; vm_compute; reflexivity. Qed.

(** A schedule, run: the first pass of the inner loop takes the two
    payloads that arrived before its test found the queue non-empty and
    the one that arrived while it ran; the fourth, delivered after the
    sleep, waits in the queue. *)
Example drains_of_a_schedule :
  drains []
    (run [Message (payload "{'temp':'1'}"); Resume now;
          Message (payload "{'temp':'2'}"); Resume now; Resume now;
          Message (payload "{'temp':'3'}"); Resume now; Resume now;
          Resume now; Resume now; Resume now; Resume now;
          Message (payload "{'temp':'4'}"); Resume now]
       (driver labels, LoopTop)).2
  = ([[text "{'temp':'1'}"; text "{'temp':'2'}"; text "{'temp':'3'}"]], [])
  ∧ payloadQueue
      (run [Message (payload "{'temp':'1'}"); Resume now;
            Message (payload "{'temp':'2'}"); Resume now; Resume now;
            Message (payload "{'temp':'3'}"); Resume now; Resume now;
            Resume now; Resume now; Resume now; Resume now;
            Message (payload "{'temp':'4'}"); Resume now]
         (driver labels, LoopTop)).1.1
    = [text "{'temp':'4'}"].
Proof. split; vm_compute; reflexivity. Qed.

(** C3, on the code: two payloads on which an exception leaves the
    generator.  The array [[1]] decodes, and the assignment of [TIME]
    raises [TypeError] outside the handler: the generator is finished,
    yields nothing, and the valid payload queued behind stays in the
    queue.  The object [{"temp":null}] decodes, [float(None)] raises
    [TypeError], and the handler [except e:] raises [NameError]. *)
Theorem payload_exception_leaves_generator :
  (run [Message (payload "[1]"); Message (payload "{'temp':'21.5'}");
        Resume now; Resume now; Resume now; Resume now; Resume now; Resume now]
     (driver labels, LoopTop)).1.2 = Raised TypeError
  ∧ yields (run [Message (payload "[1]"); Message (payload "{'temp':'21.5'}");
                 Resume now; Resume now; Resume now; Resume now; Resume now;
                 Resume now]
              (driver labels, LoopTop)).2 = []
  ∧ payloadQueue
      (run [Message (payload "[1]"); Message (payload "{'temp':'21.5'}");
            Resume now; Resume now; Resume now; Resume now; Resume now;
            Resume now]
         (driver labels, LoopTop)).1.1 = [text "{'temp':'21.5'}"]
  ∧ (run [Message (payload "{'temp':null}"); Resume now; Resume now; Resume now]
       (driver labels, LoopTop)).1.2 = Raised NameError
  ∧ yields (run [Message (payload "{'temp':null}"); Resume now; Resume now;
                 Resume now]
              (driver labels, LoopTop)).2 = [].
Proof. split_and!; vm_compute; reflexivity. Qed.

(** The constructor on no options at all. *)
Example constructed_with_defaults :
  (__init__ (options None) (Ok tt)).2 = Ok (driver ∅).
Proof. vm_compute. reflexivity. Qed.

(** *** Further runs of the driver *)

(** X2 on a payload whose [temp] is [null]. *)
Lemma unconvertible_mapped_value_ends_generator_witness :
  (gen_step now (set_payloadQueue (driver labels) [text "{'temp':null}"],
                 QueueGet)).1
  = (set_payloadQueue (set_payloadQueue (driver labels) [text "{'temp':null}"]) [],
     Raised NameError)
  ∧ yields (gen_step now (set_payloadQueue (driver labels)
                            [text "{'temp':null}"], QueueGet)).2 = []
  ∧ Uncaught NameError
    ∈ (gen_step now (set_payloadQueue (driver labels) [text "{'temp':null}"],
                     QueueGet)).2.
Proof.
  apply (unconvertible_mapped_value_ends_generator
           (set_payloadQueue (driver labels) [text "{'temp':null}"])
           now (text "{'temp':null}") [] [("temp", PNone)] "temp" PNone).
  - reflexivity.
  - vm_compute. reflexivity.
  - exists "outTemp". vm_compute. reflexivity.
  - vm_compute. reflexivity.
  - vm_compute. reflexivity.
Defined.

(** X3 on the array [[1]]. *)
Lemma generator_ends_only_by_payload_or_sleep_exception_witness :
  TypeError = TypeError ∨ TypeError = NameError
  ∨ format_d (poll_interval (driver labels)) = Raise TypeError
  ∨ time_sleep (poll_interval (driver labels)) = Raise TypeError.
Proof.
  apply (generator_ends_only_by_payload_or_sleep_exception (driver labels)
           [Message (payload "[1]"); Resume now; Resume now; Resume now]
           TypeError).
  vm_compute. reflexivity.
Defined.

(** X4 on a schedule with a record, a decode error and an exception. *)
Lemma every_taken_payload_has_one_outcome_witness :
  length (gets (run [Message (payload "{'temp':'21.5'}");
                     Message (payload "{'temp':"); Message (payload "[1]");
                     Resume now; Resume now; Resume now; Resume now;
                     Resume now; Resume now; Resume now; Resume now]
                  (driver labels, LoopTop)).2)
  = (length (yields (run [Message (payload "{'temp':'21.5'}");
                          Message (payload "{'temp':"); Message (payload "[1]");
                          Resume now; Resume now; Resume now; Resume now;
                          Resume now; Resume now; Resume now; Resume now]
                       (driver labels, LoopTop)).2)
     + length (decode_errors
                 (run [Message (payload "{'temp':'21.5'}");
                       Message (payload "{'temp':"); Message (payload "[1]");
                       Resume now; Resume now; Resume now; Resume now;
                       Resume now; Resume now; Resume now; Resume now]
                    (driver labels, LoopTop)).2)
     + finished (run [Message (payload "{'temp':'21.5'}");
                      Message (payload "{'temp':"); Message (payload "[1]");
                      Resume now; Resume now; Resume now; Resume now;
                      Resume now; Resume now; Resume now; Resume now]
                   (driver labels, LoopTop)).1.2)%nat.
Proof.
  apply (every_taken_payload_has_one_outcome (driver labels)
           [Message (payload "{'temp':'21.5'}");
            Message (payload "{'temp':"); Message (payload "[1]");
            Resume now; Resume now; Resume now; Resume now;
            Resume now; Resume now; Resume now; Resume now]);
    vm_compute; reflexivity.
Defined.

(** The three outcomes of that schedule. *)
Example outcomes_of_a_schedule :
  length (gets (run [Message (payload "{'temp':'21.5'}");
                     Message (payload "{'temp':"); Message (payload "[1]");
                     Resume now; Resume now; Resume now; Resume now;
                     Resume now; Resume now; Resume now; Resume now]
                  (driver labels, LoopTop)).2) = 3%nat
  ∧ length (yields (run [Message (payload "{'temp':'21.5'}");
                         Message (payload "{'temp':"); Message (payload "[1]");
                         Resume now; Resume now; Resume now; Resume now;
                         Resume now; Resume now; Resume now; Resume now]
                      (driver labels, LoopTop)).2) = 1%nat
  ∧ decode_errors (run [Message (payload "{'temp':'21.5'}");
                        Message (payload "{'temp':"); Message (payload "[1]");
                        Resume now; Resume now; Resume now; Resume now;
                        Resume now; Resume now; Resume now; Resume now]
                     (driver labels, LoopTop)).2 = [text "{'temp':"]
  ∧ (run [Message (payload "{'temp':'21.5'}");
          Message (payload "{'temp':"); Message (payload "[1]");
          Resume now; Resume now; Resume now; Resume now;
          Resume now; Resume now; Resume now; Resume now]
       (driver labels, LoopTop)).1.2 = Raised TypeError.
Proof. split_and!; vm_compute; reflexivity. Qed.

(** X5 on the field [outTemp] of a record. *)
Lemma record_holds_only_mapped_targets_and_floats_witness :
  ("outTemp" = "usUnits"
   ∨ ∃ src, src ∈ dict_keys (dict_set "TIME" (PInt now) [("temp", PStr "21.5")])
            ∧ label_map (driver labels) !! src = Some "outTemp")
  ∧ (PFloat 21.5 = PInt METRIC ∨ PFloat 21.5 = PNone
     ∨ ∃ f, PFloat 21.5 = PFloat f).
Proof.
  apply (record_holds_only_mapped_targets_and_floats (driver labels) 0 now
           (text "{'temp':'21.5'}") [("temp", PStr "21.5")]
           (loop_body (driver labels) 0 now (text "{'temp':'21.5'}")).1
           {[ "usUnits" := PInt METRIC; "outTemp" := PFloat 21.5 ]}
           "outTemp" (PFloat 21.5));
    vm_compute; reflexivity.
Defined.

(** X6 on two keys mapped to [outTemp]. *)
Lemma last_key_of_a_shared_target_wins_witness :
  ∃ tr p,
    loop_body (driver {[ "temp" := "outTemp"; "t2" := "outTemp" ]}) 0 now
      (text "{'temp':'1','t2':'2'}") = (tr, Ok (Some p))
    ∧ p !! "outTemp"
      = Some (match py_float (PStr "2") with
              | Ok f => PFloat f
              | Raise _ => PNone
              end).
Proof.
  apply (last_key_of_a_shared_target_wins
           (driver {[ "temp" := "outTemp"; "t2" := "outTemp" ]}) 0 now
           (text "{'temp':'1','t2':'2'}")
           [("temp", PStr "1"); ("t2", PStr "2")] ["temp"] ["TIME"] "t2"
           "outTemp" (PStr "2")).
  - vm_compute. reflexivity.
  - vm_compute. reflexivity.
  - vm_compute. reflexivity.
  - vm_compute. reflexivity.
  - replace (targets (label_map (driver {[ "temp" := "outTemp"; "t2" := "outTemp" ]}))
               ["TIME"]) with (@nil string) by (vm_compute; reflexivity).
    apply not_elem_of_nil.
  - vm_compute. reflexivity.
Defined.

Example shared_target_holds_last_value :
  (loop_body (driver {[ "temp" := "outTemp"; "t2" := "outTemp" ]}) 0 now
     (text "{'temp':'1','t2':'2'}")).2
  = Ok (Some {[ "usUnits" := PInt METRIC; "outTemp" := PFloat 2 ]}).
Proof. vm_compute. reflexivity. Qed.

(** X7 on two payloads that share their one mapped field. *)
Lemma record_depends_only_on_mapped_fields_witness :
  (loop_body (driver labels) 0 now (text "{'temp':'21.5','extra':'x'}")).2
  = (loop_body (driver labels) 3 (now + 5)
       (text "{'junk':[1],'TIME':7,'temp':'21.5'}")).2.
Proof.
  apply (record_depends_only_on_mapped_fields (driver labels) 0 3 now (now + 5)
           (text "{'temp':'21.5','extra':'x'}")
           (text "{'junk':[1],'TIME':7,'temp':'21.5'}")
           [("temp", PStr "21.5"); ("extra", PStr "x")]
           [("junk", PList [PInt 1]); ("TIME", PInt 7); ("temp", PStr "21.5")]);
    vm_compute; reflexivity.
Defined.


(** X13 on five steps: two sleeps, and the generator at the test. *)
Lemma idle_generator_cycles_forever_witness :
  (run (Resume <$> [now; now; now; now; now]) (driver labels, LoopTop)).1
  = (driver labels,
     if Nat.even (length [now; now; now; now; now]) then LoopTop else WhileTest)
  ∧ yields (run (Resume <$> [now; now; now; now; now]) (driver labels, LoopTop)).2 = []
  ∧ gets (run (Resume <$> [now; now; now; now; now]) (driver labels, LoopTop)).2 = []
  ∧ sleeps (run (Resume <$> [now; now; now; now; now]) (driver labels, LoopTop)).2
    = replicate (Nat.div2 (length [now; now; now; now; now]))
        (poll_interval (driver labels)).
Proof.
  apply (idle_generator_cycles_forever (driver labels) [now; now; now; now; now]);
    vm_compute; reflexivity.
Defined.

(** X15 on the poll interval [-1], which [time.sleep] rejects. *)
Lemma rejected_poll_interval_ends_idle_generator_witness :
  (run [Resume now; Resume (now + 1)] (driver_polling (-1), LoopTop)).1
  = (driver_polling (-1), Raised ValueError)
  ∧ Uncaught ValueError
    ∈ (run [Resume now; Resume (now + 1)] (driver_polling (-1), LoopTop)).2
  ∧ sleeps (run [Resume now; Resume (now + 1)] (driver_polling (-1), LoopTop)).2
    = []
  ∧ yields (run [Resume now; Resume (now + 1)] (driver_polling (-1), LoopTop)).2
    = [].
Proof.
  apply (rejected_poll_interval_ends_idle_generator (driver_polling (-1))
           now (now + 1) ValueError).
  - reflexivity.
  - right. split; vm_compute; reflexivity.
Defined.

(** X10 on the label map of the documentation. *)
Lemma constructor_keeps_supplied_options_witness :
  host (driver labels) = default "localhost" (opt_host (options (Some labels)))
  ∧ topic (driver labels) = default "weather" (opt_topic (options (Some labels)))
  ∧ username (driver labels)
    = default "no default" (opt_username (options (Some labels)))
  ∧ password (driver labels)
    = default "no default" (opt_password (options (Some labels)))
  ∧ client_id (driver labels)
    = default "wxclient" (opt_client (options (Some labels)))
  ∧ py_float (default (PFloat 5) (opt_poll_interval (options (Some labels))))
    = Ok (poll_interval (driver labels))
  ∧ label_map (driver labels) = default ∅ (opt_label_map (options (Some labels)))
  ∧ payloadQueue (driver labels) = [] ∧ connected (driver labels) = false
  ∧ UsernamePwSet (username (driver labels)) (password (driver labels))
    ∈ (__init__ (options (Some labels)) (Ok ())).1
  ∧ Connect (host (driver labels)) 1883 60
    ∈ (__init__ (options (Some labels)) (Ok ())).1
  ∧ sleeps (__init__ (options (Some labels)) (Ok ())).1 = [4%float]
  ∧ last (__init__ (options (Some labels)) (Ok ())).1 = Some LoopStart.
Proof.
  apply (constructor_keeps_supplied_options (options (Some labels)) (Ok ())
           (__init__ (options (Some labels)) (Ok ())).1 (driver labels)).
  vm_compute. reflexivity.
Defined.

Example constructor_rejects_bad_poll_interval :
  __init__ {| opt_host := None; opt_topic := None; opt_username := None;
              opt_password := None; opt_client := None;
              opt_poll_interval := Some (PStr "fast"); opt_label_map := None |}
    (Ok ())
  = ([], Raise ValueError).
Proof. vm_compute. reflexivity. Qed.

Example constructor_parses_poll_interval :
  poll_interval
    <$> match (__init__ {| opt_host := None; opt_topic := None;
                           opt_username := None; opt_password := None;
                           opt_client := None;
                           opt_poll_interval := Some (PStr "2.5");
                           opt_label_map := None |} (Ok ())).2 with
        | Ok self => Some self
        | Raise _ => None
        end
  = Some 2.5%float.
Proof. vm_compute. reflexivity. Qed.
